(** * cc-parser: PDF text normalisation and credit-card statement extraction

    A shallow embedding of [parser.py] (class [CustomPDFParser]) and
    [credit_card_parser.py] (class [CreditCardStatementParser]), followed by
    the properties of the design document that concern them.

    Python values are modelled as follows.
    - A [str] is a list of Unicode code points ([N]).
    - A page dictionary [{"text", "metadata", "word_count"}] is a record;
      page dictionaries are mutable objects, so they live in a heap indexed
      by references and the functions that assign to their keys thread the
      heap.
    - A raised exception is the [Raise] case of [outcome].
    - The [re] module and the Unicode case tables are interfaces (type
      classes): the code is verified for every implementation of them. *)

From Stdlib Require Import Ascii String.
From Stdlib Require Import List NArith ZArith Bool Lia.
From Stdlib Require Import Sorting.Sorted.
Import ListNotations.

(* ================================================================== *)
(** * Python strings                                                   *)
(* ================================================================== *)

Module PyStr.

(** A code point, and a Python [str]. *)
Definition char := N.
Definition str := list char.

Definition char_eqb (a b : char) : bool := N.eqb a b.

Fixpoint str_eqb (a b : str) : bool :=
  match a, b with
  | [], [] => true
  | x :: a', y :: b' => char_eqb x y && str_eqb a' b'
  | _, _ => false
  end.

(** The line feed, U+000A. *)
Definition nl : char := 10%N.

(** Literals: an ASCII literal of the source text as a [str]. *)
Definition py (s : string) : str := map N_of_ascii (list_ascii_of_string s).
Arguments py s%_string.

(** [c.isspace()] for a single code point: the white-space code points of
    the Unicode character database, which [str.strip()] and [str.split()]
    without arguments remove. *)
Definition is_space (c : char) : bool :=
  ((9 <=? c) && (c <=? 13) || (28 <=? c) && (c <=? 32)
   || (c =? 133) || (c =? 160) || (c =? 5760)
   || (8192 <=? c) && (c <=? 8202)
   || (c =? 8232) || (c =? 8233) || (c =? 8239) || (c =? 8287)
   || (c =? 12288))%N.

(** Truthiness of a [str] and of a list: non-empty. *)
Definition truthy {A : Type} (l : list A) : bool :=
  match l with [] => false | _ :: _ => true end.

(** [s.lstrip()], [s.rstrip()], [s.strip()]. *)
Fixpoint lstrip (s : str) : str :=
  match s with
  | [] => []
  | c :: r => if is_space c then lstrip r else s
  end.

Definition rstrip (s : str) : str := rev (lstrip (rev s)).

Definition strip (s : str) : str := rstrip (lstrip s).

(** [s.split(sep)] for a separator of one character: never an empty list. *)
Fixpoint split (sep : char) (s : str) : list str :=
  match s with
  | [] => [[]]
  | c :: r =>
      if char_eqb c sep then [] :: split sep r
      else match split sep r with
           | l :: ls => (c :: l) :: ls
           | [] => [[c]]
           end
  end.

(** [sep.join(parts)]. *)
Fixpoint join (sep : str) (parts : list str) : str :=
  match parts with
  | [] => []
  | [p] => p
  | p :: rest => p ++ sep ++ join sep rest
  end.

(** [s.startswith(p)]. *)
Fixpoint startswith (s p : str) : bool :=
  match p, s with
  | [], _ => true
  | x :: p', y :: s' => char_eqb x y && startswith s' p'
  | _ :: _, [] => false
  end.

(** [p in s]: [p] occurs in [s] as a substring. *)
Fixpoint contains (p s : str) : bool :=
  startswith s p ||
  match s with
  | [] => false
  | _ :: r => contains p r
  end.

(** [s.replace(old, new)] for a non-empty [old]: the occurrences of [old]
    are found from left to right and do not overlap.  [skip] counts the
    characters of the occurrence just replaced that are still to be passed
    over. *)
Fixpoint replace_from (old new : str) (skip : nat) (s : str) : str :=
  match s with
  | [] => []
  | c :: r =>
      match skip with
      | S k => replace_from old new k r
      | O =>
          if startswith s old
          then new ++ replace_from old new (length old - 1) r
          else c :: replace_from old new 0 r
      end
  end.

Definition replace (old new s : str) : str := replace_from old new 0 s.

(** [s.split()] without arguments: the maximal runs of non-space characters.
    [cur] is the word being read. *)
Fixpoint words_from (cur : str) (s : str) : list str :=
  match s with
  | [] => if truthy cur then [cur] else []
  | c :: r =>
      if is_space c
      then (if truthy cur then cur :: words_from [] r else words_from [] r)
      else words_from (cur ++ [c]) r
  end.

Definition split_ws (s : str) : list str := words_from [] s.

(** [l[-1]] of a non-empty list, [l[1:]] and [l[:-1]]. *)
Definition last_item (l : list str) : str := last l [].
Definition drop_first (l : list str) : list str := tl l.
Definition drop_last (l : list str) : list str := removelast l.

(** [l.count(x)]. *)
Definition count (x : str) (l : list str) : nat :=
  length (filter (str_eqb x) l).

(** [set(l)], enumerated in order of first occurrence.  The order in which
    Python enumerates a set is unspecified; [HeaderFooterFacts] shows that
    the code below does not depend on it. *)
Fixpoint set_of (l : list str) : list str :=
  match l with
  | [] => []
  | x :: r => x :: filter (fun y => negb (str_eqb x y)) (set_of r)
  end.

End PyStr.
Import PyStr.

(* ================================================================== *)
(** * Exceptions                                                       *)
(* ================================================================== *)

(** An exception object: its class and [str(e)].  Every exception modelled
    here derives from [Exception], so [except Exception] catches it. *)
Record exc : Type := { exc_class : string; exc_message : str }.

Inductive outcome (A : Type) : Type :=
| Return (a : A)
| Raise (e : exc).
Arguments Return {A} a.
Arguments Raise {A} e.

(* ================================================================== *)
(** * parser.py: class CustomPDFParser                                 *)
(* ================================================================== *)

Module CustomPDFParser.

(** The attributes set by [__init__]. *)
Record config : Type := {
  extract_images : bool;
  preserve_layout : bool;
  remove_headers_footers : bool;
  min_text_length : Z
}.

(** What the code reads from a [pypdf] page object: the two results of
    [page.extract_text], the attributes copied into the metadata, and the
    list [_extract_image_info] builds (it catches its own exceptions). *)
Record image_info : Type := {
  image_index : nat; image_name : str;
  image_width : option Z; image_height : option Z
}.

Record pdf_page : Type := {
  extract_text_layout : outcome str;
  extract_text_plain : outcome str;
  rotation : Z;
  mediabox : str;
  page_images : list image_info
}.

(** The page dictionary and its ["metadata"] dictionary (absent keys are
    [None]). *)
Record page_metadata : Type := {
  page_number : Z;
  md_rotation : option Z;
  md_mediabox : option str;
  md_images : option (list image_info);
  md_error : option str
}.

Record page_data : Type := {
  text : str;
  metadata : page_metadata;
  word_count : nat
}.

(** [page_data["text"] = t]. *)
Definition set_text (p : page_data) (t : str) : page_data :=
  {| text := t; metadata := metadata p; word_count := word_count p |}.

(** ** _clean_text *)

(** One iteration of [for line in lines]. *)
Definition clean_step (cleaned_lines : list str) (line : str) : list str :=
  let line := strip line in
  if truthy line then cleaned_lines ++ [line]
  else if truthy cleaned_lines && truthy (last_item cleaned_lines)
       then cleaned_lines ++ [[]]
       else cleaned_lines.

Definition nl3 : str := [nl; nl; nl].
Definition nl2 : str := [nl; nl].

(** [while '\n\n\n' in cleaned_text: cleaned_text = cleaned_text.replace(...)],
    run for at most [fuel] iterations.  Every iteration shortens the text, so
    its length is fuel enough ([collapse_loop_terminates]). *)
Fixpoint collapse_loop (fuel : nat) (cleaned_text : str) : str :=
  match fuel with
  | O => cleaned_text
  | S fuel' =>
      if contains nl3 cleaned_text
      then collapse_loop fuel' (replace nl3 nl2 cleaned_text)
      else cleaned_text
  end.

Definition collapse (cleaned_text : str) : str :=
  collapse_loop (length cleaned_text) cleaned_text.

Definition _clean_text (text : str) : str :=
  if negb (truthy text) then []
  else
    let lines := split nl text in
    let cleaned_lines := fold_left clean_step lines [] in
    let cleaned_text := join [nl] cleaned_lines in
    strip (collapse cleaned_text).

(** ** extract_text_from_page *)

Definition _extract_image_info (page : pdf_page) : list image_info :=
  page_images page.

Definition extract_text_from_page (self : config) (page : pdf_page)
    (page_num : nat) : page_data :=
  match (if preserve_layout self then extract_text_layout page
         else extract_text_plain page) with
  | Return raw =>
      let text := _clean_text raw in
      {| text := text;
         metadata :=
           {| page_number := Z.of_nat page_num + 1;
              md_rotation := Some (rotation page);
              md_mediabox := Some (mediabox page);
              md_images := if extract_images self
                           then Some (_extract_image_info page) else None;
              md_error := None |};
         word_count := if truthy text then length (split_ws text) else 0 |}
  | Raise e =>
      {| text := [];
         metadata :=
           {| page_number := Z.of_nat page_num + 1;
              md_rotation := None; md_mediabox := None; md_images := None;
              md_error := Some (exc_message e) |};
         word_count := 0 |}
  end.

(** ** _remove_headers_footers *)

(** Page dictionaries are mutable objects: a heap maps references to their
    current contents, and [pages_data] is a list of references. *)
Definition ref := nat.
Definition heap := ref -> page_data.

Definition store (h : heap) (r : ref) (p : page_data) : heap :=
  fun r' => if Nat.eqb r' r then p else h r'.

(** [n > total * 0.5]. *)
Definition over_half (n total : nat) : bool := total <? 2 * n.

Definition first_line (text : str) : str :=
  if truthy text then hd [] (split nl text) else [].

Definition last_line (text : str) : str :=
  if truthy text then last_item (split nl text) else [].

(** [[line for line in set(lines) if lines.count(line) > threshold
      and line.strip()]]. *)
Definition frequent (lines : list str) (total : nat) : list str :=
  filter (fun line => over_half (count line lines) total
                      && truthy (strip line))
         (set_of lines).

(** [for header in potential_headers: if lines[0].strip() == header.strip():
      lines = lines[1:]; break]. *)
Fixpoint remove_header (lines potential_headers : list str) : list str :=
  match potential_headers with
  | [] => lines
  | header :: rest =>
      if str_eqb (strip (hd [] lines)) (strip header)
      then drop_first lines
      else remove_header lines rest
  end.

Fixpoint remove_footer (lines potential_footers : list str) : list str :=
  match potential_footers with
  | [] => lines
  | footer :: rest =>
      if str_eqb (strip (last_item lines)) (strip footer)
      then drop_last lines
      else remove_footer lines rest
  end.

(** The new text of one page: the body of [for page_data in pages_data]. *)
Definition strip_page (potential_headers potential_footers : list str)
    (text : str) : str :=
  let lines := split nl text in
  let lines := if truthy lines && truthy potential_headers
               then remove_header lines potential_headers else lines in
  let lines := if truthy lines && truthy potential_footers
               then remove_footer lines potential_footers else lines in
  strip (join [nl] lines).

Definition strip_step (potential_headers potential_footers : list str)
    (h : heap) (page_data : ref) : heap :=
  store h page_data
    (set_text (h page_data)
       (strip_page potential_headers potential_footers (text (h page_data)))).

(** The function returns the list it was given; the page dictionaries the
    list refers to are updated in the heap. *)
Definition _remove_headers_footers (self : config) (h : heap)
    (pages_data : list ref) : heap * list ref :=
  if (length pages_data <? 3) || negb (remove_headers_footers self)
  then (h, pages_data)
  else
    let first_lines := map (fun page => first_line (text (h page))) pages_data in
    let last_lines := map (fun page => last_line (text (h page))) pages_data in
    let potential_headers := frequent first_lines (length pages_data) in
    let potential_footers := frequent last_lines (length pages_data) in
    (fold_left (strip_step potential_headers potential_footers) pages_data h,
     pages_data).

(** ** parse_pdf *)

(** The dictionary built by [_extract_document_metadata], which catches its
    own exceptions; nothing below depends on its content. *)
Definition document_metadata := list (str * str).

(** An opened document: [pdf_reader.pages] and the document metadata.  A
    failure of [open], of [PdfReader] or while the pages are read is the
    [Raise] case of the [outcome pdf_reader] that [parse_pdf] receives. *)
Record pdf_reader : Type := {
  reader_pages : list pdf_page;
  reader_metadata : document_metadata
}.

Record parsed_pdf : Type := {
  full_text : str;
  pages : list page_data;
  doc_metadata : document_metadata;
  total_pages : nat;
  processed_pages : nat;
  total_words : nat
}.

(** [for i, page in enumerate(pdf_reader.pages)], from index [i] on. *)
Fixpoint collect_pages (self : config) (i : nat) (pages : list pdf_page)
    : list page_data :=
  match pages with
  | [] => []
  | page :: rest =>
      let page_data := extract_text_from_page self page i in
      if (min_text_length self <=? Z.of_nat (length (text page_data)))%Z
      then page_data :: collect_pages self (S i) rest
      else collect_pages self (S i) rest
  end.

Definition blank_page : page_data :=
  {| text := [];
     metadata := {| page_number := 0; md_rotation := None; md_mediabox := None;
                    md_images := None; md_error := None |};
     word_count := 0 |}.

(** The page dictionaries of [pages_data] are distinct objects created by
    the loop: the [k]-th one is allocated at reference [k]. *)
Definition alloc (pages_data : list page_data) : heap * list ref :=
  (fun r => nth r pages_data blank_page, seq 0 (length pages_data)).

Definition parse_pdf (self : config) (file : outcome pdf_reader)
    : outcome parsed_pdf :=
  match file with
  | Raise e => Raise e
  | Return pdf_reader =>
      let doc_metadata := reader_metadata pdf_reader in
      let '(h, pages_data) := alloc (collect_pages self 0 (reader_pages pdf_reader)) in
      let '(h, pages_data) := _remove_headers_footers self h pages_data in
      let pages := map h pages_data in
      let full_text :=
        join nl2
             (map text (filter (fun page => truthy (text page)) pages)) in
      Return {| full_text := full_text;
                pages := pages;
                doc_metadata := doc_metadata;
                total_pages := length (reader_pages pdf_reader);
                processed_pages := length pages_data;
                total_words := list_sum (map word_count pages) |}
  end.

End CustomPDFParser.
Import CustomPDFParser.

(* ================================================================== *)
(** * Interfaces of the Python runtime                                 *)
(* ================================================================== *)

(** [c.lower()] on ASCII: [A]..[Z] to [a]..[z]. *)
Definition ascii_lower (c : char) : char :=
  if ((65 <=? c) && (c <=? 90))%N then (c + 32)%N else c.

(** The case tables of the Unicode character database, as [str.lower] uses
    them: the full lower-case mapping of a code point, and the test of the
    context of a capital sigma (U+03A3).  On ASCII the mapping is
    [ascii_lower]. *)
Class CaseTables : Type := {
  to_lower_full : char -> str;
  final_sigma : str -> str -> bool;
  to_lower_full_ascii :
    forall c, (c < 128)%N -> to_lower_full c = [ascii_lower c]
}.

(** The case tables restricted to ASCII letters (every other code point is
    its own lower case), to run the code on ASCII text. *)
#[local] Instance ascii_case_tables : CaseTables :=
  {| to_lower_full := fun c => [ascii_lower c];
     final_sigma := fun _ _ => false;
     to_lower_full_ascii := fun c _ => eq_refl |}.

(** The flags and the two functions of the module [re] the code calls.
    A match is the list of its groups, group 0 first; [re_findall] gives,
    for each match in the order of the text, the list of groups 1, 2, ... *)
Record re_flags : Type := { IGNORECASE : bool; MULTILINE : bool }.

Class Regex : Type := {
  re_search : str -> re_flags -> str -> option (list str);
  re_findall : str -> re_flags -> str -> list (list str)
}.

(** [match.group(i)], and [match[i]] on a tuple of [re.findall]. *)
Definition group (m : list str) (i : nat) : str := nth i m [].

(** The module [time] of the standard library has no attribute [now]
    (it is [datetime] that has one): evaluating [time.now] raises. *)
Definition time_now : outcome str :=
  Raise {| exc_class := "AttributeError";
           exc_message := py "module 'time' has no attribute 'now'" |}.

(* ================================================================== *)
(** * credit_card_parser.py: class CreditCardStatementParser           *)
(* ================================================================== *)

Module CreditCardStatementParser.

Section WithRuntime.

Context {case_tables : CaseTables} {regex : Regex}.

(** [text.lower()]; [before] is the part of the string already passed. *)
Fixpoint lower_from (before s : str) : str :=
  match s with
  | [] => []
  | c :: r =>
      (if (c =? 931)%N
       then [if final_sigma before r then 962%N else 963%N]
       else to_lower_full c)
      ++ lower_from (before ++ [c]) r
  end.

Definition lower (s : str) : str := lower_from [] s.

(** [self.pdf_parser], as [__init__] builds it. *)
Definition pdf_parser : config :=
  {| extract_images := false;
     preserve_layout := true;
     remove_headers_footers := false;
     min_text_length := 5 |}.

(** ** _detect_issuer *)

Definition issuers : list (str * list str) :=
  [ (py "American Express", [py "american express"; py "amex"]);
    (py "Chase", [py "chase"; py "jpmorgan chase"]);
    (py "Citibank", [py "citibank"; py "citi card"]);
    (py "Capital One", [py "capital one"]);
    (py "Bank of America", [py "bank of america"; py "bankamericard"]) ].

(** [for keyword in keywords: if keyword in text_lower: return issuer]. *)
Fixpoint any_keyword (keywords : list str) (text_lower : str) : bool :=
  match keywords with
  | [] => false
  | keyword :: rest =>
      if contains keyword text_lower then true
      else any_keyword rest text_lower
  end.

Fixpoint detect_in (table : list (str * list str)) (text_lower : str) : str :=
  match table with
  | [] => py "Unknown"
  | (issuer, keywords) :: rest =>
      if any_keyword keywords text_lower then issuer
      else detect_in rest text_lower
  end.

Definition _detect_issuer (text : str) : str :=
  let text_lower := lower text in
  detect_in issuers text_lower.

(** ** The field extractors *)

Definition I_M : re_flags := {| IGNORECASE := true; MULTILINE := true |}.
Definition I_ : re_flags := {| IGNORECASE := true; MULTILINE := false |}.
Definition M_ : re_flags := {| IGNORECASE := false; MULTILINE := true |}.

(** [for pattern in patterns: match = re.search(...); if match: return
      result(match)], and [None] after the loop. *)
Fixpoint first_match (patterns : list str) (flags : re_flags) (text : str)
    (result : list str -> str) : option str :=
  match patterns with
  | [] => None
  | pattern :: rest =>
      match re_search pattern flags text with
      | Some m => Some (result m)
      | None => first_match rest flags text result
      end
  end.

Definition _extract_card_last_4 (text : str) : option str :=
  first_match
    [ py "(?:card|account)\s*(?:number|ending|#)?\s*[:\s]*(?:x+|\*+)?(\d{4})";
      py "(\d{4})\s*$";
      py "x{4,}\s*(\d{4})";
      py "\*{4,}\s*(\d{4})" ]
    I_M text (fun m => group m 1).

Definition _extract_statement_period (text : str) : option str :=
  first_match
    [ py "(?:statement|billing)\s+(?:period|cycle|date)[:\s]+(\d{1,2}[/-]\d{1,2}[/-]\d{2,4})\s+(?:to|through|-)\s+(\d{1,2}[/-]\d{1,2}[/-]\d{2,4})";
      py "(?:from|period)[:\s]+(\w+\s+\d{1,2},?\s+\d{4})\s+(?:to|through)\s+(\w+\s+\d{1,2},?\s+\d{4})" ]
    I_ text (fun m => group m 1 ++ py " to " ++ group m 2).

Definition _extract_total_amount_due (text : str) : option str :=
  first_match
    [ py "(?:total|new)\s+(?:amount\s+)?(?:due|balance)[:\s]+\$?([\d,]+\.\d{2})";
      py "(?:payment\s+due)[:\s]+\$?([\d,]+\.\d{2})";
      py "(?:balance)[:\s]+\$?([\d,]+\.\d{2})" ]
    I_ text (fun m => py "$" ++ group m 1).

Definition _extract_payment_due_date (text : str) : option str :=
  first_match
    [ py "(?:payment\s+)?due\s+(?:date|by)[:\s]+(\w+\s+\d{1,2},?\s+\d{4})";
      py "(?:payment\s+)?due\s+(?:date|by)[:\s]+(\d{1,2}[/-]\d{1,2}[/-]\d{2,4})";
      py "(?:pay\s+by)[:\s]+(\w+\s+\d{1,2},?\s+\d{4})" ]
    I_ text (fun m => group m 1).

(** ** _extract_transactions *)

Record transaction : Type := {
  date : str;
  description : str;
  amount : str
}.

Definition transaction_pattern : str :=
  py "(\d{1,2}[/-]\d{1,2}[/-]\d{2,4})\s+([A-Za-z0-9\s\*\-]+?)\s+(\$?[\d,]+\.\d{2})".

(** The dictionary appended for one match. *)
Definition transaction_of (m : list str) : transaction :=
  {| date := group m 0;
     description := strip (group m 1);
     amount := if startswith (group m 2) (py "$") then group m 2
               else py "$" ++ group m 2 |}.

Definition _extract_transactions (text : str) : list transaction :=
  let matches := re_findall transaction_pattern M_ text in
  let transactions := map transaction_of (firstn 5 matches) in
  if truthy transactions then transactions else [].

(** ** parse_statement *)

(** The dictionary returned on success, and the one the handler builds. *)
Record extracted_data : Type := {
  issuer : str;
  card_last_4_digits : option str;
  statement_period : option str;
  total_amount_due : option str;
  payment_due_date : option str;
  transactions : list transaction;
  raw_metadata : document_metadata;
  extraction_timestamp : str
}.

Record error_data : Type := {
  error : str;
  error_issuer : str;
  error_extraction_timestamp : str
}.

Inductive statement : Type :=
| Extracted (d : extracted_data)
| Failed (d : error_data).

(** [datetime_now] is the value of [datetime.now().isoformat()] at the call;
    [file] is what opening and reading [pdf_path] gives. *)
Definition parse_statement (datetime_now : str) (file : outcome pdf_reader)
    : outcome statement :=
  match parse_pdf pdf_parser file with
  | Return parsed_data =>
      let full_text := full_text parsed_data in
      let issuer := _detect_issuer full_text in
      Return (Extracted
        {| issuer := issuer;
           card_last_4_digits := _extract_card_last_4 full_text;
           statement_period := _extract_statement_period full_text;
           total_amount_due := _extract_total_amount_due full_text;
           payment_due_date := _extract_payment_due_date full_text;
           transactions := _extract_transactions full_text;
           raw_metadata := doc_metadata parsed_data;
           extraction_timestamp := datetime_now |})
  | Raise e =>
      (* except Exception as e: the dictionary is built key by key *)
      let error := exc_message e in
      let issuer := py "Unknown" in
      match time_now with
      | Return timestamp =>
          Return (Failed {| error := error; error_issuer := issuer;
                            error_extraction_timestamp := timestamp |})
      | Raise e' => Raise e'
      end
  end.

End WithRuntime.

End CreditCardStatementParser.
Import CreditCardStatementParser.

(* ================================================================== *)
(** * Python dictionaries                                              *)
(* ================================================================== *)

Module PyDict.

(** The values the metadata dictionaries hold. *)
Inductive value : Type :=
| VStr (s : str)
| VInt (n : Z)
| VImages (l : list image_info).

(** A dictionary with string keys: its items in insertion order. *)
Definition dict := list (str * value).

(** [d.get(key)]. *)
Fixpoint dict_get (d : dict) (key : str) : option value :=
  match d with
  | [] => None
  | (k, v) :: rest => if str_eqb k key then Some v else dict_get rest key
  end.

(** [d[key] = v]: a key already there keeps its place. *)
Fixpoint dict_set (d : dict) (key : str) (v : value) : dict :=
  match d with
  | [] => [(key, v)]
  | (k, v') :: rest =>
      if str_eqb k key then (k, v) :: rest
      else (k, v') :: dict_set rest key v
  end.

(** [{**a, **b}]: the items of [a], then those of [b], are set in a new
    dictionary. *)
Definition dict_merge (a b : dict) : dict :=
  fold_left (fun d kv => dict_set d (fst kv) (snd kv)) (a ++ b) [].

End PyDict.
Import PyDict.

(* ================================================================== *)
(** * langchain_loader.py: class LangChainPDFLoader                    *)
(* ================================================================== *)

Module LangChainPDFLoader.

(** [parser_config]: the keyword arguments given to [CustomPDFParser]; a key
    that is absent is [None]. *)
Record parser_config : Type := {
  opt_extract_images : option bool;
  opt_preserve_layout : option bool;
  opt_remove_headers_footers : option bool;
  opt_min_text_length : option Z
}.

(** [{}]. *)
Definition no_options : parser_config :=
  {| opt_extract_images := None; opt_preserve_layout := None;
     opt_remove_headers_footers := None; opt_min_text_length := None |}.

Definition or_default {A : Type} (o : option A) (default : A) : A :=
  match o with Some a => a | None => default end.

(** [CustomPDFParser] applied to the items of [parser_config], with the defaults of [__init__]. *)
Definition make_parser (parser_config : parser_config) : config :=
  {| extract_images := or_default (opt_extract_images parser_config) false;
     preserve_layout := or_default (opt_preserve_layout parser_config) true;
     remove_headers_footers :=
       or_default (opt_remove_headers_footers parser_config) true;
     min_text_length := or_default (opt_min_text_length parser_config) 10%Z |}.

(** The attributes set by [__init__]; [parser_config or {}] is done by
    [new]. *)
Record loader : Type := {
  file : outcome pdf_reader;
  chunk_size : Z;
  chunk_overlap : Z;
  parser : config
}.

Definition new (file : outcome pdf_reader)
    (parser_config : option parser_config) (chunk_size chunk_overlap : Z)
    : loader :=
  {| file := file;
     chunk_size := chunk_size;
     chunk_overlap := chunk_overlap;
     parser := make_parser (or_default parser_config no_options) |}.

(** A LangChain [Document]. *)
Record Document : Type := {
  page_content : str;
  metadata : dict
}.

(** The ["metadata"] dictionary of a page, as [extract_text_from_page]
    builds it, and the document metadata, as dictionaries. *)
Definition item {A : Type} (key : string) (wrap : A -> value) (o : option A)
    : dict :=
  match o with Some a => [(py key, wrap a)] | None => [] end.

Definition page_metadata_dict (m : page_metadata) : dict :=
  [(py "page_number", VInt (page_number m))]
  ++ item "rotation" VInt (md_rotation m)
  ++ item "mediabox" VStr (md_mediabox m)
  ++ item "images" VImages (md_images m)
  ++ item "error" VStr (md_error m).

Definition document_metadata_dict (m : document_metadata) : dict :=
  map (fun kv => (fst kv, VStr (snd kv))) m.

(** One iteration of [for page_data in parsed_data["pages"]]. *)
Definition load_page (parsed_data : parsed_pdf) (page_data : page_data)
    : list Document :=
  if truthy (text page_data)
  then
    let metadata :=
      dict_merge (document_metadata_dict (doc_metadata parsed_data))
                 (page_metadata_dict (CustomPDFParser.metadata page_data)) in
    [ {| page_content := text page_data; metadata := metadata |} ]
  else [].

Definition load (self : loader) : outcome (list Document) :=
  match parse_pdf (parser self) (file self) with
  | Raise e => Raise e
  | Return parsed_data =>
      Return (flat_map (load_page parsed_data) (pages parsed_data))
  end.

(** [RecursiveCharacterTextSplitter(chunk_size, chunk_overlap,
    separators).split_documents(documents)], of the library. *)
Class TextSplitter : Type := {
  split_documents : Z -> Z -> list str -> list Document -> list Document
}.

Definition load_and_split {splitter : TextSplitter} (self : loader)
    : outcome (list Document) :=
  match load self with
  | Raise e => Raise e
  | Return documents =>
      Return (split_documents (chunk_size self) (chunk_overlap self)
                [nl2; [nl]; py " "; []] documents)
  end.

End LangChainPDFLoader.

(* ================================================================== *)
(** * pipeline.py: class PDFProcessingPipeline                         *)
(* ================================================================== *)

Module PDFProcessingPipeline.

Import LangChainPDFLoader.

(** What [process_single_pdf] returns, by [output_format]. *)
Inductive output : Type :=
| Raw (parsed : parsed_pdf)
| Documents (docs : list Document)
| Text (s : str).

Definition map_outcome {A B : Type} (f : A -> B) (o : outcome A) : outcome B :=
  match o with Return a => Return (f a) | Raise e => Raise e end.

(** [self.parser_config] is [parser_config or {}]. *)
Definition process_single_pdf {splitter : TextSplitter}
    (parser_config : option parser_config) (pdf_path : outcome pdf_reader)
    (output_format : str) (chunk_documents : bool)
    (chunk_size chunk_overlap : Z) : outcome output :=
  let parser_config := or_default parser_config no_options in
  if str_eqb output_format (py "raw") then
    let parser := make_parser parser_config in
    map_outcome Raw (parse_pdf parser pdf_path)
  else if str_eqb output_format (py "langchain") then
    let loader := new pdf_path (Some parser_config) chunk_size chunk_overlap in
    if chunk_documents then map_outcome Documents (load_and_split loader)
    else map_outcome Documents (load loader)
  else if str_eqb output_format (py "text") then
    let parser := make_parser parser_config in
    map_outcome (fun parsed_data => Text (full_text parsed_data))
                (parse_pdf parser pdf_path)
  else
    Raise {| exc_class := "ValueError";
             exc_message := py "Unknown output_format: " ++ output_format |}.

End PDFProcessingPipeline.

(* ================================================================== *)
(** * The vocabulary of the properties                               *)
(* ================================================================== *)

(** ** Lines and white space *)

(** The first character, if any, is not white space. *)
Definition head_ok (s : str) : bool :=
  match s with [] => true | c :: _ => negb (is_space c) end.

(** The last character, if any, is not white space. *)
Definition last_ok (s : str) : bool := head_ok (rev s).

(** The lines of a page text; the empty text has none. *)
Definition lines_of (text : str) : list str :=
  if truthy text then split nl text else [].

(** A line as [_clean_text] keeps it: without line feed, and without white
    space at either end. *)
Definition line_ok (l : str) : Prop :=
  ~ In nl l /\ head_ok l = true /\ last_ok l = true.

(** The shape of [cleaned_lines]: every line is [line_ok], and an empty line
    only follows a non-empty one ([after_text] tells what precedes the
    list). *)
Fixpoint tidy_from (after_text : bool) (lines : list str) : Prop :=
  match lines with
  | [] => True
  | l :: rest =>
      line_ok l /\
      (if truthy l then tidy_from true rest
       else after_text = true /\ tidy_from false rest)
  end.

(** The shape of [cleaned_lines] at the start of the text. *)
Definition tidy (lines : list str) : Prop := tidy_from false lines.

(** The list ends with a non-empty line. *)
Definition ends_with_text (after_text : bool) (lines : list str) : bool :=
  match lines with
  | [] => after_text
  | _ :: _ => truthy (last_item lines)
  end.

(** [cleaned_lines] without the trailing empty line the final [strip]
    removes. *)
Definition trim_blank (lines : list str) : list str :=
  if truthy (last_item lines) then lines else removelast lines.

(** The lines of a normalized text: tidy, and not ending with an empty
    line. *)
Definition normal_lines (lines : list str) : Prop :=
  tidy lines /\ (lines = [] \/ truthy (last_item lines) = true).

(** [l[1:]] when [l[0]] is empty, else [l]. *)
Definition drop_lead_blank (lines : list str) : list str :=
  match lines with
  | [] :: rest => rest
  | _ => lines
  end.

(** The lines that remain of [lines] once the joined text is stripped. *)
Definition trim_blanks (lines : list str) : list str :=
  trim_blank (drop_lead_blank lines).

(** ** Pages *)

(** The page number a page dictionary carries. *)
Definition number_of (p : page_data) : Z := page_number (metadata p).

(** [after] is [before] less at most one line at the start and at most one
    line at the end. *)
Definition loses_at_most_one_line_each_end (before after : str) : Prop :=
  exists removed_head removed_foot,
    lines_of before = removed_head ++ lines_of after ++ removed_foot /\
    length removed_head <= 1 /\ length removed_foot <= 1.

(** ** Patterns *)

(** The lists [patterns] of the four field extractors. *)
Definition card_patterns : list str :=
  [ py "(?:card|account)\s*(?:number|ending|#)?\s*[:\s]*(?:x+|\*+)?(\d{4})";
    py "(\d{4})\s*$";
    py "x{4,}\s*(\d{4})";
    py "\*{4,}\s*(\d{4})" ].

Definition period_patterns : list str :=
  [ py "(?:statement|billing)\s+(?:period|cycle|date)[:\s]+(\d{1,2}[/-]\d{1,2}[/-]\d{2,4})\s+(?:to|through|-)\s+(\d{1,2}[/-]\d{1,2}[/-]\d{2,4})";
    py "(?:from|period)[:\s]+(\w+\s+\d{1,2},?\s+\d{4})\s+(?:to|through)\s+(\w+\s+\d{1,2},?\s+\d{4})" ].

Definition amount_patterns : list str :=
  [ py "(?:total|new)\s+(?:amount\s+)?(?:due|balance)[:\s]+\$?([\d,]+\.\d{2})";
    py "(?:payment\s+due)[:\s]+\$?([\d,]+\.\d{2})";
    py "(?:balance)[:\s]+\$?([\d,]+\.\d{2})" ].

Definition due_date_patterns : list str :=
  [ py "(?:payment\s+)?due\s+(?:date|by)[:\s]+(\w+\s+\d{1,2},?\s+\d{4})";
    py "(?:payment\s+)?due\s+(?:date|by)[:\s]+(\d{1,2}[/-]\d{1,2}[/-]\d{2,4})";
    py "(?:pay\s+by)[:\s]+(\w+\s+\d{1,2},?\s+\d{4})" ].

(** [m] is the match of the first pattern of the list, in its order, that
    matches the text. *)
Definition first_hit {regex : Regex} (patterns : list str) (flags : re_flags)
    (text : str) (m : list str) : Prop :=
  exists before pattern after,
    patterns = before ++ pattern :: after /\
    Forall (fun p => re_search p flags text = None) before /\
    re_search pattern flags text = Some m.

(** ** Case *)

(** A lower-case ASCII letter, digit or sign: [lower] leaves it alone. *)
Definition lower_stable (c : char) : Prop :=
  (c < 128)%N /\ ascii_lower c = c.

(* ================================================================== *)
(** * Example documents                                                *)
(* ================================================================== *)

(** Text given line by line, for the examples. *)
Definition lines_text (ls : list string) : str := join [nl] (map py ls).

(** [CustomPDFParser()] with the default arguments of [__init__]. *)
Definition default_config : config :=
  {| extract_images := false;
     preserve_layout := true;
     remove_headers_footers := true;
     min_text_length := 10 |}.

(** A page whose extracted text is [raw]. *)
Definition page_with_text (raw : str) : pdf_page :=
  {| extract_text_layout := Return raw;
     extract_text_plain := Return raw;
     rotation := 0;
     mediabox := py "[0, 0, 612, 792]";
     page_images := [] |}.

Definition reader_of (texts : list str) : pdf_reader :=
  {| reader_pages := map page_with_text texts; reader_metadata := [] |}.

(** Three pages that consist of the same single line. *)
Definition cover_pages : pdf_reader :=
  reader_of [py "CONFIDENTIAL STATEMENT"; py "CONFIDENTIAL STATEMENT";
             py "CONFIDENTIAL STATEMENT"].

(** Three pages with the same first line, a blank line and a body. *)
Definition letter_texts : list str :=
  [ lines_text ["STATEMENT"; EmptyString; "Body one"];
    lines_text ["STATEMENT"; EmptyString; "Body two"];
    lines_text ["STATEMENT"; EmptyString; "Body three"] ]%string.

(** The page dictionaries [parse_pdf] builds for these pages, in the heap. *)
Definition letter_heap : heap :=
  fst (alloc (collect_pages default_config 0 (map page_with_text letter_texts))).

Definition letter_refs : list ref := [0; 1; 2].

(** Three pages that share neither their first nor their last line. *)
Definition memo_texts : list str :=
  [ lines_text ["First memo"; "about travel"];
    lines_text ["Second memo"; "about lodging"];
    lines_text ["Third memo"; "about meals"] ]%string.

Definition memo_heap : heap :=
  fst (alloc (collect_pages default_config 0 (map page_with_text memo_texts))).

(** A document whose second page cannot be extracted. *)
Definition damaged_pages : pdf_reader :=
  {| reader_pages :=
       [ page_with_text (py "A first page of text");
         {| extract_text_layout :=
              Raise {| exc_class := "PdfReadError";
                       exc_message := py "bad content stream" |};
            extract_text_plain :=
              Raise {| exc_class := "PdfReadError";
                       exc_message := py "bad content stream" |};
            rotation := 0;
            mediabox := py "[0, 0, 612, 792]";
            page_images := [] |};
         page_with_text (py "A third page of text") ];
     reader_metadata := [] |}.

(** A configuration that keeps every page. *)
Definition keep_all_config : config :=
  {| extract_images := false;
     preserve_layout := true;
     remove_headers_footers := true;
     min_text_length := 0 |}.

(** A sentence of a statement that names no issuer. *)
Definition purchases_sentence : str :=
  py "Total purchases this period: 12 items".

(* ================================================================== *)
(** * Facts about the string operations                                *)
(* ================================================================== *)

Module PyStrFacts.

Lemma char_eqb_eq (a b : char) : char_eqb a b = true <-> a = b.
Proof. unfold char_eqb. apply N.eqb_eq. Qed.

Lemma char_eqb_refl (a : char) : char_eqb a a = true.
Proof. apply char_eqb_eq. reflexivity. Qed.

Lemma str_eqb_eq (a b : str) : str_eqb a b = true <-> a = b.
Proof.
  revert b. induction a as [|x a IH]; intros [|y b]; simpl; split;
    try congruence; try reflexivity.
  - intros H. apply andb_true_iff in H as [Hx Hab].
    apply char_eqb_eq in Hx. apply IH in Hab. congruence.
  - intros H. injection H as -> ->.
    rewrite char_eqb_refl. simpl. apply IH. reflexivity.
Qed.

Lemma str_eqb_refl (a : str) : str_eqb a a = true.
Proof. apply str_eqb_eq. reflexivity. Qed.

Lemma str_eqb_neq (a b : str) : str_eqb a b = false <-> a <> b.
Proof.
  split.
  - intros H E. apply str_eqb_eq in E. congruence.
  - intros H. destruct (str_eqb a b) eqn:E; [|reflexivity].
    apply str_eqb_eq in E. contradiction.
Qed.

Lemma truthy_false {A : Type} (l : list A) : truthy l = false <-> l = [].
Proof. destruct l; simpl; split; congruence. Qed.

Lemma truthy_true {A : Type} (l : list A) : truthy l = true <-> l <> [].
Proof. destruct l; simpl; split; congruence. Qed.

(** ** strip *)

Lemma lstrip_suffix (s : str) : exists pre, s = pre ++ lstrip s.
Proof.
  induction s as [|c r [pre IH]]; simpl.
  - exists []. reflexivity.
  - destruct (is_space c).
    + exists (c :: pre). simpl. congruence.
    + exists []. reflexivity.
Qed.

Lemma rstrip_prefix (s : str) : exists suf, s = rstrip s ++ suf.
Proof.
  unfold rstrip. destruct (lstrip_suffix (rev s)) as [pre H].
  exists (rev pre). rewrite <- rev_app_distr, <- H. symmetry. apply rev_involutive.
Qed.

Lemma head_ok_lstrip (s : str) : head_ok (lstrip s) = true.
Proof.
  induction s as [|c r IH]; simpl; [reflexivity|].
  destruct (is_space c) eqn:E; [exact IH|]. simpl. rewrite E. reflexivity.
Qed.

Lemma lstrip_fixed (s : str) : head_ok s = true -> lstrip s = s.
Proof.
  destruct s as [|c r]; simpl; [reflexivity|].
  intros H. apply negb_true_iff in H. rewrite H. reflexivity.
Qed.

Lemma last_ok_rstrip (s : str) : last_ok (rstrip s) = true.
Proof. unfold last_ok, rstrip. rewrite rev_involutive. apply head_ok_lstrip. Qed.

Lemma rstrip_fixed (s : str) : last_ok s = true -> rstrip s = s.
Proof.
  unfold last_ok, rstrip. intros H. rewrite lstrip_fixed by exact H.
  apply rev_involutive.
Qed.

Lemma head_ok_app (a b : str) : a <> [] -> head_ok (a ++ b) = head_ok a.
Proof. destruct a; simpl; congruence. Qed.

Lemma last_ok_app (a b : str) : b <> [] -> last_ok (a ++ b) = last_ok b.
Proof.
  intros H. unfold last_ok. rewrite rev_app_distr. apply head_ok_app.
  intros E. apply (f_equal (@rev char)) in E. rewrite rev_involutive in E.
  simpl in E. contradiction.
Qed.

Lemma head_ok_rstrip (s : str) : head_ok s = true -> head_ok (rstrip s) = true.
Proof.
  intros H. destruct (rstrip_prefix s) as [suf E].
  destruct (rstrip s) as [|c r] eqn:R; [reflexivity|].
  rewrite E in H. simpl in *. exact H.
Qed.

Lemma head_ok_strip (s : str) : head_ok (strip s) = true.
Proof. apply head_ok_rstrip, head_ok_lstrip. Qed.

Lemma last_ok_strip (s : str) : last_ok (strip s) = true.
Proof. apply last_ok_rstrip. Qed.

Lemma strip_fixed (s : str) :
  head_ok s = true -> last_ok s = true -> strip s = s.
Proof.
  intros H1 H2. unfold strip. rewrite lstrip_fixed by exact H1.
  apply rstrip_fixed, H2.
Qed.

Lemma strip_idempotent (s : str) : strip (strip s) = strip s.
Proof. apply strip_fixed; [apply head_ok_strip | apply last_ok_strip]. Qed.

Lemma strip_nil : strip [] = [].
Proof. reflexivity. Qed.

Lemma rstrip_snoc_space (s : str) (c : char) :
  is_space c = true -> rstrip (s ++ [c]) = rstrip s.
Proof.
  intros H. unfold rstrip. rewrite rev_app_distr. simpl. rewrite H. reflexivity.
Qed.

(** [strip] only removes characters. *)
Lemma lstrip_incl (s : str) (c : char) : In c (lstrip s) -> In c s.
Proof.
  destruct (lstrip_suffix s) as [pre E]. intros H. rewrite E.
  apply in_or_app. right. exact H.
Qed.

Lemma strip_incl (s : str) (c : char) : In c (strip s) -> In c s.
Proof.
  unfold strip, rstrip. intros H. apply lstrip_incl.
  apply in_rev in H. apply lstrip_incl in H. apply in_rev in H. exact H.
Qed.

(** ** split and join *)

Lemma split_not_nil (sep : char) (s : str) : split sep s <> [].
Proof.
  induction s as [|c r IH]; simpl; [discriminate|].
  destruct (char_eqb c sep); [discriminate|].
  destruct (split sep r); [contradiction|discriminate].
Qed.

Lemma split_no_sep (sep : char) (s : str) :
  Forall (fun l => ~ In sep l) (split sep s).
Proof.
  induction s as [|c r IH]; simpl.
  - constructor; [intros []|constructor].
  - destruct (char_eqb c sep) eqn:E.
    + constructor; [intros []|exact IH].
    + destruct (split sep r) as [|l ls]; [constructor; [|constructor]|].
      * intros [H|[]]. subst. rewrite char_eqb_refl in E. discriminate.
      * inversion IH; subst. constructor; [|assumption].
        intros [H|H]; [|contradiction].
        subst. rewrite char_eqb_refl in E. discriminate.
Qed.

Lemma join_cons (sep p : str) (rest : list str) :
  rest <> [] -> join sep (p :: rest) = p ++ sep ++ join sep rest.
Proof. destruct rest; [contradiction|reflexivity]. Qed.

Lemma join_snoc (sep : str) (parts : list str) (p : str) :
  parts <> [] -> join sep (parts ++ [p]) = join sep parts ++ sep ++ p.
Proof.
  induction parts as [|q rest IH]; [contradiction|]. intros _.
  destruct rest as [|q' rest'].
  - reflexivity.
  - change ((q :: q' :: rest') ++ [p]) with (q :: ((q' :: rest') ++ [p])).
    rewrite join_cons by (simpl; discriminate).
    rewrite IH by discriminate.
    rewrite (join_cons sep q (q' :: rest')) by discriminate.
    repeat rewrite <- app_assoc. reflexivity.
Qed.

Lemma join_split (sep : char) (s : str) : join [sep] (split sep s) = s.
Proof.
  induction s as [|c r IH]; simpl; [reflexivity|].
  destruct (char_eqb c sep) eqn:E.
  - apply char_eqb_eq in E. subst c.
    rewrite join_cons by apply split_not_nil. rewrite IH. reflexivity.
  - pose proof (split_not_nil sep r) as Hn.
    destruct (split sep r) as [|l ls]; [contradiction|].
    destruct ls as [|l' ls'].
    + simpl in *. congruence.
    + rewrite join_cons by discriminate. rewrite join_cons in IH by discriminate.
      rewrite <- IH. reflexivity.
Qed.

Lemma split_sep_free (sep : char) (l : str) : ~ In sep l -> split sep l = [l].
Proof.
  induction l as [|c r IH]; simpl; intros H; [reflexivity|].
  destruct (char_eqb c sep) eqn:E.
  - apply char_eqb_eq in E. subst. exfalso. apply H. left. reflexivity.
  - rewrite IH; [reflexivity|]. intros Hin. apply H. right. exact Hin.
Qed.

Lemma split_app_sep (sep : char) (a b : str) :
  split sep (a ++ sep :: b) = split sep a ++ split sep b.
Proof.
  induction a as [|c r IH]; simpl.
  - rewrite char_eqb_refl. reflexivity.
  - destruct (char_eqb c sep); [rewrite IH; reflexivity|].
    rewrite IH. pose proof (split_not_nil sep r) as Hn.
    destruct (split sep r) as [|l ls]; [contradiction|]. reflexivity.
Qed.

Lemma split_join (sep : char) (parts : list str) :
  parts <> [] -> Forall (fun l => ~ In sep l) parts ->
  split sep (join [sep] parts) = parts.
Proof.
  induction parts as [|p rest IH]; [contradiction|]. intros _ H.
  inversion H as [|? ? Hp Hrest]; subst.
  destruct rest as [|q rest'].
  - simpl. apply split_sep_free, Hp.
  - rewrite join_cons by discriminate.
    change ([sep] ++ join [sep] (q :: rest')) with (sep :: join [sep] (q :: rest')).
    rewrite split_app_sep, IH by (assumption || discriminate).
    rewrite split_sep_free by exact Hp. reflexivity.
Qed.

(** ** startswith and contains *)

Lemma startswith_spec (s p : str) :
  startswith s p = true <-> exists b, s = p ++ b.
Proof.
  revert s. induction p as [|x p IH]; intros s; simpl.
  - destruct s; split; eauto.
  - destruct s as [|y s]; split.
    + discriminate.
    + intros [b H]. discriminate.
    + intros H. apply andb_true_iff in H as [Hx Hs].
      apply char_eqb_eq in Hx. apply IH in Hs as [b ->]. subst. eauto.
    + intros [b H]. injection H as -> ->. simpl. rewrite char_eqb_refl.
      apply IH. eauto.
Qed.

Lemma contains_spec (p s : str) :
  contains p s = true <-> exists a b, s = a ++ p ++ b.
Proof.
  induction s as [|c r IH].
  - change (contains p []) with (startswith [] p || false).
    rewrite orb_false_r. rewrite startswith_spec. split.
    + intros [b H]. exists [], b. exact H.
    + intros [a [b H]]. destruct a; [exists b; exact H|discriminate].
  - change (contains p (c :: r)) with (startswith (c :: r) p || contains p r).
    rewrite orb_true_iff, startswith_spec, IH. split.
    + intros [[b H]|[a [b H]]].
      * exists [], b. exact H.
      * exists (c :: a), b. simpl. congruence.
    + intros [a [b H]]. destruct a as [|x a].
      * left. exists b. exact H.
      * right. injection H as -> ->. eauto.
Qed.

Lemma contains_app (p a b : str) :
  contains p b = true -> contains p (a ++ b) = true.
Proof.
  rewrite !contains_spec. intros [x [y ->]]. exists (a ++ x), y.
  rewrite <- app_assoc. reflexivity.
Qed.

End PyStrFacts.
Import PyStrFacts.

(* ================================================================== *)
(** * Facts about _clean_text                                          *)
(* ================================================================== *)

Module CleanTextFacts.

Lemma line_ok_nil : line_ok [].
Proof. repeat split. intros []. Qed.

Lemma line_ok_strip (l : str) : ~ In nl l -> line_ok (strip l).
Proof.
  intros H. repeat split.
  - intros Hin. apply H. apply strip_incl. exact Hin.
  - apply head_ok_strip.
  - apply last_ok_strip.
Qed.

Lemma line_ok_fixed (l : str) : line_ok l -> strip l = l.
Proof. intros (_ & H1 & H2). apply strip_fixed; assumption. Qed.

Lemma last_item_snoc (lines : list str) (x : str) :
  last_item (lines ++ [x]) = x.
Proof. unfold last_item. apply last_last. Qed.

Lemma last_item_cons (l : str) (rest : list str) :
  rest <> [] -> last_item (l :: rest) = last_item rest.
Proof. destruct rest; [contradiction|reflexivity]. Qed.

Lemma ends_with_text_cons (b : bool) (l : str) (rest : list str) :
  ends_with_text b (l :: rest) = ends_with_text (truthy l) rest.
Proof. destruct rest as [|l' rest']; reflexivity. Qed.

Lemma tidy_from_snoc (b : bool) (lines : list str) (x : str) :
  tidy_from b (lines ++ [x]) <->
  tidy_from b lines /\ line_ok x /\
  (truthy x = true \/ ends_with_text b lines = true).
Proof.
  revert b. induction lines as [|l rest IH]; intros b.
  - simpl. destruct (truthy x); intuition congruence.
  - change ((l :: rest) ++ [x]) with (l :: (rest ++ [x])).
    rewrite ends_with_text_cons. simpl tidy_from.
    destruct (truthy l); rewrite IH; intuition.
Qed.

Lemma tidy_from_app (b : bool) (xs ys : list str) :
  tidy_from b (xs ++ ys) -> tidy_from b xs.
Proof.
  revert b. induction xs as [|l rest IH]; intros b; simpl; [tauto|].
  destruct (truthy l).
  - intros [H1 H2]. split; [assumption|]. eapply IH, H2.
  - intros [H1 [H2 H3]]. split; [assumption|]. split; [assumption|].
    eapply IH, H3.
Qed.

Lemma tidy_from_lines (b : bool) (lines : list str) :
  tidy_from b lines -> Forall line_ok lines.
Proof.
  revert b. induction lines as [|l rest IH]; intros b; simpl; [constructor|].
  destruct (truthy l); intros H; constructor; try tauto.
  - apply (IH true). tauto.
  - apply (IH false). tauto.
Qed.

Lemma tidy_no_double_blank (b : bool) (xs ys : list str) :
  ~ tidy_from b (xs ++ [] :: [] :: ys).
Proof.
  revert b. induction xs as [|l rest IH]; intros b; simpl.
  - intros (_ & _ & _ & H & _). discriminate.
  - destruct (truthy l); intros H.
    + apply (IH true). tauto.
    + apply (IH false). tauto.
Qed.

Lemma ends_with_text_eq (lines : list str) :
  ends_with_text false lines = truthy lines && truthy (last_item lines).
Proof. destruct lines; reflexivity. Qed.

(** The loop keeps the shape, *)
Lemma clean_step_tidy (cleaned_lines : list str) (line : str) :
  ~ In nl line -> tidy cleaned_lines -> tidy (clean_step cleaned_lines line).
Proof.
  intros Hnl Ht. unfold clean_step, tidy.
  destruct (truthy (strip line)) eqn:E.
  - apply tidy_from_snoc. repeat split; auto; apply line_ok_strip; auto.
  - rewrite <- ends_with_text_eq.
    destruct (ends_with_text false cleaned_lines) eqn:E'; [|exact Ht].
    apply tidy_from_snoc. split; [exact Ht|]. split; [apply line_ok_nil|].
    right. exact E'.
Qed.

Lemma fold_clean_tidy (lines cleaned_lines : list str) :
  Forall (fun l => ~ In nl l) lines -> tidy cleaned_lines ->
  tidy (fold_left clean_step lines cleaned_lines).
Proof.
  revert cleaned_lines. induction lines as [|l rest IH]; intros acc Hl Ht.
  - exact Ht.
  - inversion Hl; subst. simpl. apply IH; [assumption|].
    apply clean_step_tidy; assumption.
Qed.

(** and leaves lines of that shape as they are. *)
Lemma clean_step_fixed (cleaned_lines : list str) (line : str) :
  tidy (cleaned_lines ++ [line]) ->
  clean_step cleaned_lines line = cleaned_lines ++ [line].
Proof.
  unfold tidy. intros H. apply tidy_from_snoc in H as (_ & Hok & Hor).
  unfold clean_step. rewrite (line_ok_fixed _ Hok).
  destruct (truthy line) eqn:E; [reflexivity|].
  destruct Hor as [Hor|Hor]; [discriminate|].
  rewrite <- ends_with_text_eq, Hor.
  apply truthy_false in E. subst. reflexivity.
Qed.

Lemma fold_clean_fixed (lines cleaned_lines : list str) :
  tidy (cleaned_lines ++ lines) ->
  fold_left clean_step lines cleaned_lines = cleaned_lines ++ lines.
Proof.
  revert cleaned_lines. induction lines as [|l rest IH]; intros acc H.
  - simpl. rewrite app_nil_r. reflexivity.
  - simpl. replace (acc ++ l :: rest) with ((acc ++ [l]) ++ rest) in *
      by (rewrite <- app_assoc; reflexivity).
    rewrite clean_step_fixed by (eapply tidy_from_app, H).
    apply IH, H.
Qed.

(** ** The joined text *)

Lemma tidy_first_text (l : str) (rest : list str) :
  tidy (l :: rest) -> l <> [] /\ head_ok l = true.
Proof.
  unfold tidy. simpl. intros [(_ & Hh & _) H]. split; [|exact Hh].
  destruct l; [|discriminate]. simpl in H. destruct H. discriminate.
Qed.

Lemma join_head_ok (lines : list str) :
  tidy lines -> head_ok (join [nl] lines) = true.
Proof.
  destruct lines as [|l rest]; [reflexivity|]. intros H.
  apply tidy_first_text in H as [Hne Hh].
  destruct rest as [|l' rest']; [exact Hh|].
  rewrite join_cons by discriminate. rewrite head_ok_app; assumption.
Qed.

Lemma join_last_ok (lines : list str) (x : str) :
  x <> [] -> last_ok x = true -> last_ok (join [nl] (lines ++ [x])) = true.
Proof.
  intros Hne Hl. destruct lines as [|l rest]; [exact Hl|].
  rewrite join_snoc by discriminate.
  rewrite app_assoc. rewrite last_ok_app; assumption.
Qed.

Lemma is_space_nl : is_space nl = true.
Proof. reflexivity. Qed.

(** The final [strip] removes the trailing empty line and nothing else. *)
Lemma strip_join_tidy (lines : list str) :
  tidy lines -> strip (join [nl] lines) = join [nl] (trim_blank lines).
Proof.
  intros Ht. destruct lines as [|l0 rest0] eqn:E; [reflexivity|].
  rewrite <- E in *. assert (Hne : lines <> []) by (subst; discriminate).
  destruct (exists_last Hne) as (front & x & ->). clear E Hne.
  pose proof (join_head_ok _ Ht) as Hh.
  unfold tidy in Ht. apply tidy_from_snoc in Ht as (Hf & Hx & Hor).
  unfold trim_blank. rewrite last_item_snoc.
  destruct (truthy x) eqn:Ex.
  - apply strip_fixed; [exact Hh|].
    apply join_last_ok; [apply truthy_true, Ex | apply Hx].
  - destruct Hor as [Hor|Hor]; [discriminate|].
    apply truthy_false in Ex. subst x. rewrite removelast_last.
    destruct front as [|f front']; [discriminate|].
    simpl in Hor.
    unfold strip. rewrite lstrip_fixed by exact Hh.
    rewrite join_snoc by discriminate. rewrite app_nil_r.
    rewrite rstrip_snoc_space by apply is_space_nl.
    apply rstrip_fixed.
    assert (Hne : f :: front' <> []) by discriminate.
    destruct (exists_last Hne) as (front2 & y & E2). rewrite E2 in *.
    rewrite last_item_snoc in Hor.
    apply tidy_from_snoc in Hf as (_ & Hy & _).
    apply join_last_ok; [apply truthy_true, Hor | apply Hy].
Qed.

Lemma tidy_join_no_nl3 (lines : list str) :
  tidy lines -> contains nl3 (join [nl] lines) = false.
Proof.
  intros Ht. destruct (contains nl3 (join [nl] lines)) eqn:E; [|reflexivity].
  exfalso. apply contains_spec in E as (a & b & E).
  destruct lines as [|l rest].
  - destruct a; discriminate.
  - apply (f_equal (split nl)) in E.
    rewrite split_join in E.
    + unfold nl3 in E. simpl app in E.
      rewrite split_app_sep in E. simpl split in E.
      rewrite E in Ht. exact (tidy_no_double_blank _ _ _ Ht).
    + discriminate.
    + eapply Forall_impl; [|apply (tidy_from_lines _ _ Ht)].
      intros x Hx. apply Hx.
Qed.

Lemma collapse_fixed (s : str) : contains nl3 s = false -> collapse s = s.
Proof.
  intros H. unfold collapse. destruct (length s); simpl; [reflexivity|].
  rewrite H. reflexivity.
Qed.

(** *** The [while] loop terminates *)

Lemma replace_from_cons (old new : str) (k : nat) (c : char) (r : str) :
  replace_from old new k (c :: r) =
  match k with
  | S k' => replace_from old new k' r
  | O => if startswith (c :: r) old
         then new ++ replace_from old new (length old - 1) r
         else c :: replace_from old new 0 r
  end.
Proof. reflexivity. Qed.

Lemma replace_from_length (s : str) (k : nat) :
  k <= length s -> length (replace_from nl3 nl2 k s) <= length s - k.
Proof.
  revert k. induction s as [|c r IH]; intros k Hk; [simpl; lia|].
  rewrite replace_from_cons. destruct k as [|k'].
  - destruct (startswith (c :: r) nl3) eqn:E.
    + apply startswith_spec in E as [b E]. injection E as _ E.
      assert (2 <= length r) by (rewrite E; simpl; lia).
      specialize (IH 2). simpl in IH |- *. lia.
    + simpl. specialize (IH 0). lia.
  - simpl in Hk |- *. specialize (IH k'). lia.
Qed.

Lemma replace_shrinks (s : str) :
  contains nl3 s = true -> length (replace nl3 nl2 s) < length s.
Proof.
  unfold replace. induction s as [|c r IH]; intros H; [discriminate|].
  change (contains nl3 (c :: r))
    with (startswith (c :: r) nl3 || contains nl3 r) in H.
  rewrite replace_from_cons. destruct (startswith (c :: r) nl3) eqn:E.
  - apply startswith_spec in E as [b E]. injection E as _ E.
    assert (2 <= length r) by (rewrite E; simpl; lia).
    pose proof (replace_from_length r 2) as L. simpl in L |- *. lia.
  - simpl in H. apply IH in H. simpl. lia.
Qed.

(** With fuel enough the loop ends because its test fails, *)
Lemma collapse_loop_terminates (fuel : nat) (s : str) :
  length s <= fuel -> contains nl3 (collapse_loop fuel s) = false.
Proof.
  revert s. induction fuel as [|fuel IH]; intros s H.
  - destruct s; [reflexivity|simpl in H; lia].
  - simpl. destruct (contains nl3 s) eqn:E; [|exact E].
    apply IH. apply replace_shrinks in E. lia.
Qed.

(** and more fuel does not change the result. *)
Lemma collapse_loop_enough (fuel fuel' : nat) (s : str) :
  length s <= fuel -> length s <= fuel' ->
  collapse_loop fuel s = collapse_loop fuel' s.
Proof.
  revert fuel' s. induction fuel as [|fuel IH]; intros fuel' s H H'.
  - destruct s; [destruct fuel'; reflexivity|simpl in H; lia].
  - destruct fuel' as [|fuel'].
    + destruct s; [reflexivity|simpl in H'; lia].
    + simpl. destruct (contains nl3 s) eqn:E; [|reflexivity].
      apply replace_shrinks in E. apply IH; lia.
Qed.

Lemma collapse_loop_fuel (fuel : nat) (s : str) :
  length s <= fuel -> collapse_loop fuel s = collapse s.
Proof. intros H. apply collapse_loop_enough; [exact H|apply le_n]. Qed.

Lemma trim_blank_normal (lines : list str) :
  tidy lines -> normal_lines (trim_blank lines).
Proof.
  intros Ht. unfold trim_blank.
  destruct (truthy (last_item lines)) eqn:E.
  - split; [exact Ht|]. right. exact E.
  - destruct lines as [|l0 rest0] eqn:E0; [split; [exact I|left; reflexivity]|].
    rewrite <- E0 in *. assert (Hne : lines <> []) by (subst; discriminate).
    destruct (exists_last Hne) as (front & x & ->). clear E0 Hne.
    rewrite removelast_last. rewrite last_item_snoc in E.
    unfold tidy in Ht. apply tidy_from_snoc in Ht as (Hf & _ & Hor).
    split; [exact Hf|]. destruct Hor as [Hor|Hor]; [congruence|].
    destruct front; [left; reflexivity|right; exact Hor].
Qed.

(** Every output of [_clean_text] is made of normal lines, *)
Lemma clean_text_shape (text : str) :
  exists lines, normal_lines lines /\ _clean_text text = join [nl] lines.
Proof.
  unfold _clean_text. destruct (truthy text) eqn:E; simpl.
  - set (cleaned := fold_left clean_step (split nl text) []).
    assert (Ht : tidy cleaned).
    { apply fold_clean_tidy; [apply split_no_sep | exact I]. }
    exists (trim_blank cleaned). split; [apply trim_blank_normal, Ht|].
    rewrite collapse_fixed by (apply tidy_join_no_nl3, Ht).
    apply strip_join_tidy, Ht.
  - exists []. split; [split; [exact I|left; reflexivity]|reflexivity].
Qed.

(** and every text made of normal lines is left unchanged. *)
Lemma clean_text_fixed (lines : list str) :
  normal_lines lines -> _clean_text (join [nl] lines) = join [nl] lines.
Proof.
  intros [Ht Hend]. destruct lines as [|l rest] eqn:E; [reflexivity|].
  rewrite <- E in *. assert (Hne : lines <> []) by (subst; discriminate).
  destruct Hend as [Hend|Hend]; [contradiction|].
  unfold _clean_text.
  assert (Htxt : truthy (join [nl] lines) = true).
  { subst lines. apply tidy_first_text in Ht as [Hl _].
    destruct rest; [|rewrite join_cons by discriminate];
      destruct l; try contradiction; reflexivity. }
  rewrite Htxt. simpl negb. cbv iota.
  rewrite split_join.
  - rewrite (fold_clean_fixed lines []) by exact Ht. simpl app.
    rewrite collapse_fixed by (apply tidy_join_no_nl3, Ht).
    rewrite strip_join_tidy by exact Ht.
    unfold trim_blank. rewrite Hend. reflexivity.
  - exact Hne.
  - eapply Forall_impl; [|apply (tidy_from_lines _ _ Ht)].
    intros x Hx. apply Hx.
Qed.

(** ** A run of lines cut out of a normalized text *)

Lemma tidy_from_weaken (b : bool) (lines : list str) :
  tidy_from b lines -> tidy_from true lines.
Proof.
  destruct lines as [|l rest]; simpl; [tauto|].
  destruct (truthy l); tauto.
Qed.

Lemma tidy_from_suffix (b : bool) (xs ys : list str) :
  tidy_from b (xs ++ ys) -> tidy_from true ys.
Proof.
  revert b. induction xs as [|l rest IH]; intros b; simpl.
  - apply tidy_from_weaken.
  - destruct (truthy l); intros H.
    + apply (IH true). tauto.
    + apply (IH false). tauto.
Qed.

Lemma drop_lead_blank_tidy (lines : list str) :
  tidy_from true lines -> tidy (drop_lead_blank lines).
Proof.
  unfold tidy. destruct lines as [|[|c l] rest]; simpl; tauto.
Qed.

Lemma strip_lead_nl (s : str) : strip (nl :: s) = strip s.
Proof. reflexivity. Qed.

Lemma strip_join_loose (lines : list str) :
  tidy_from true lines ->
  strip (join [nl] lines) = join [nl] (trim_blanks lines).
Proof.
  intros H. unfold trim_blanks.
  rewrite <- strip_join_tidy by (apply drop_lead_blank_tidy, H).
  destruct lines as [|[|c l] rest]; try reflexivity.
  destruct rest as [|l' rest']; [reflexivity|].
  rewrite join_cons by discriminate. apply strip_lead_nl.
Qed.

Lemma trim_blanks_normal (lines : list str) :
  tidy_from true lines -> normal_lines (trim_blanks lines).
Proof. intros H. apply trim_blank_normal, drop_lead_blank_tidy, H. Qed.

(** Nothing but an empty line at either end is trimmed. *)
Lemma trim_blanks_split (lines : list str) :
  exists blank_head blank_foot,
    lines = blank_head ++ trim_blanks lines ++ blank_foot /\
    (blank_head = [] \/ blank_head = [[]]) /\
    (blank_foot = [] \/ blank_foot = [[]]).
Proof.
  assert (H1 : exists bh, lines = bh ++ drop_lead_blank lines /\
                          (bh = [] \/ bh = [[]])).
  { destruct lines as [|[|c l] rest]; simpl.
    - exists []. auto.
    - exists [[]]. auto.
    - exists []. auto. }
  destruct H1 as (bh & E1 & Hbh).
  assert (H2 : exists bf, drop_lead_blank lines = trim_blanks lines ++ bf /\
                          (bf = [] \/ bf = [[]])).
  { unfold trim_blanks, trim_blank.
    destruct (truthy (last_item (drop_lead_blank lines))) eqn:E.
    - exists []. rewrite app_nil_r. auto.
    - destruct (drop_lead_blank lines) as [|l rest] eqn:Ed.
      + exists []. auto.
      + exists [[]]. split; [|auto].
        apply truthy_false in E. unfold last_item in E. rewrite <- E.
        apply app_removelast_last. discriminate. }
  destruct H2 as (bf & E2 & Hbf).
  exists bh, bf. rewrite <- E2, <- E1. auto.
Qed.

Lemma normal_lines_text (lines : list str) :
  normal_lines lines -> lines <> [] -> truthy (join [nl] lines) = true.
Proof.
  intros [Ht _] Hne. destruct lines as [|l rest]; [contradiction|].
  apply tidy_first_text in Ht as [Hl _].
  destruct rest; [|rewrite join_cons by discriminate];
    destruct l; try contradiction; reflexivity.
Qed.

Lemma normal_lines_split (lines : list str) :
  normal_lines lines -> lines <> [] -> split nl (join [nl] lines) = lines.
Proof.
  intros [Ht _] Hne. apply split_join; [exact Hne|].
  eapply Forall_impl; [|apply (tidy_from_lines _ _ Ht)].
  intros x Hx. apply Hx.
Qed.

End CleanTextFacts.
Import CleanTextFacts.

(* ================================================================== *)
(** * Facts about _remove_headers_footers                              *)
(* ================================================================== *)

Module HeaderFooterFacts.

(** ** The candidate lines do not depend on the order of [set(...)] *)

Lemma set_of_In (x : str) (l : list str) : In x (set_of l) <-> In x l.
Proof.
  induction l as [|y r IH]; simpl; [tauto|].
  rewrite filter_In, IH, negb_true_iff, str_eqb_neq.
  destruct (str_eqb y x) eqn:E.
  - apply str_eqb_eq in E. tauto.
  - apply str_eqb_neq in E. tauto.
Qed.

Lemma NoDup_filter {A : Type} (f : A -> bool) (l : list A) :
  NoDup l -> NoDup (filter f l).
Proof.
  induction 1 as [|x l Hx Hl IH]; simpl; [constructor|].
  destruct (f x); [|exact IH].
  constructor; [|exact IH]. intros H. apply filter_In in H. tauto.
Qed.

Lemma set_of_NoDup (l : list str) : NoDup (set_of l).
Proof.
  induction l as [|y r IH]; simpl; constructor.
  - intros H. apply filter_In in H as [_ H].
    rewrite str_eqb_refl in H. discriminate.
  - apply NoDup_filter, IH.
Qed.

Lemma count_two (a b : str) (l : list str) :
  a <> b -> count a l + count b l <= length l.
Proof.
  intros Hab. unfold count. induction l as [|x r IH]; simpl; [lia|].
  destruct (str_eqb a x) eqn:Ea; destruct (str_eqb b x) eqn:Eb; simpl; try lia.
  apply str_eqb_eq in Ea, Eb. congruence.
Qed.

(** Two lines cannot both be on more than half of the pages. *)
Lemma over_half_unique (a b : str) (l : list str) :
  over_half (count a l) (length l) = true ->
  over_half (count b l) (length l) = true -> a = b.
Proof.
  unfold over_half. intros Ha Hb. apply Nat.ltb_lt in Ha, Hb.
  destruct (str_eqb a b) eqn:E; [apply str_eqb_eq, E|].
  apply str_eqb_neq in E. pose proof (count_two a b l E). lia.
Qed.

Lemma filter_unique {A : Type} (f : A -> bool) (l : list A) :
  NoDup l ->
  (forall a b, f a = true -> f b = true -> a = b) ->
  filter f l = [] \/ exists a, filter f l = [a].
Proof.
  intros Hnd Hu. pose proof (NoDup_filter f l Hnd) as Hf.
  destruct (filter f l) as [|a [|b r]] eqn:E; eauto.
  exfalso.
  assert (Ha : In a (filter f l)) by (rewrite E; simpl; auto).
  assert (Hb : In b (filter f l)) by (rewrite E; simpl; auto).
  apply filter_In in Ha as [_ Ha]. apply filter_In in Hb as [_ Hb].
  pose proof (Hu a b Ha Hb). subst b.
  inversion Hf as [|? ? Hin _]; subst. apply Hin. left. reflexivity.
Qed.

Lemma filter_unique_order {A : Type} (f : A -> bool) (l l' : list A) :
  NoDup l -> NoDup l' -> (forall x, In x l <-> In x l') ->
  (forall a b, f a = true -> f b = true -> a = b) ->
  filter f l = filter f l'.
Proof.
  intros Hl Hl' Hsame Hu.
  assert (Hin : forall x, In x (filter f l) <-> In x (filter f l')).
  { intros x. rewrite !filter_In, Hsame. tauto. }
  destruct (filter_unique f l Hl Hu) as [E|[a E]];
    destruct (filter_unique f l' Hl' Hu) as [E'|[a' E']];
    rewrite E, E' in *; try reflexivity.
  - exfalso. apply (Hin a'). left. reflexivity.
  - exfalso. apply (Hin a). left. reflexivity.
  - destruct (Hin a) as [H _]. destruct H as [H|[]]; [left; reflexivity|].
    congruence.
Qed.

(** There is at most one candidate, *)
Lemma frequent_at_most_one (lines : list str) :
  length (frequent lines (length lines)) <= 1.
Proof.
  unfold frequent.
  match goal with |- length (filter ?f _) <= 1 =>
    destruct (filter_unique f (set_of lines) (set_of_NoDup lines)) as [E|[a E]]
  end; try (rewrite E; simpl; lia).
  intros a b Ha Hb. apply andb_true_iff in Ha as [Ha _], Hb as [Hb _].
  eapply over_half_unique; eassumption.
Qed.

(** and every enumeration of the set of lines gives the same candidates. *)
Lemma frequent_any_order (lines enum : list str) :
  NoDup enum -> (forall x, In x enum <-> In x lines) ->
  filter (fun line => over_half (count line lines) (length lines)
                      && truthy (strip line)) enum
  = frequent lines (length lines).
Proof.
  intros Hnd Hsame. unfold frequent. apply filter_unique_order.
  - exact Hnd.
  - apply set_of_NoDup.
  - intros x. rewrite Hsame, set_of_In. tauto.
  - intros a b Ha Hb. apply andb_true_iff in Ha as [Ha _], Hb as [Hb _].
    eapply over_half_unique; eassumption.
Qed.

(** ** One page *)

Lemma remove_header_cases (lines potential_headers : list str) :
  remove_header lines potential_headers = lines \/
  remove_header lines potential_headers = drop_first lines.
Proof.
  induction potential_headers as [|hdr rest IH]; simpl; [left; reflexivity|].
  destruct (str_eqb _ _); [right; reflexivity|exact IH].
Qed.

Lemma remove_footer_cases (lines potential_footers : list str) :
  remove_footer lines potential_footers = lines \/
  remove_footer lines potential_footers = drop_last lines.
Proof.
  induction potential_footers as [|ftr rest IH]; simpl; [left; reflexivity|].
  destruct (str_eqb _ _); [right; reflexivity|exact IH].
Qed.

(** The lines joined into the new text are those of the old text, less at
    most one at the start and at most one at the end. *)
Lemma strip_page_lines (potential_headers potential_footers : list str)
    (text : str) :
  exists removed_head kept removed_foot,
    split nl text = removed_head ++ kept ++ removed_foot /\
    length removed_head <= 1 /\ length removed_foot <= 1 /\
    strip_page potential_headers potential_footers text
    = strip (join [nl] kept).
Proof.
  unfold strip_page.
  set (lines := split nl text).
  set (lines1 := if truthy lines && truthy potential_headers
                 then remove_header lines potential_headers else lines).
  set (lines2 := if truthy lines1 && truthy potential_footers
                 then remove_footer lines1 potential_footers else lines1).
  assert (H1 : exists rh, lines = rh ++ lines1 /\ length rh <= 1).
  { subst lines1. destruct (truthy lines && truthy potential_headers).
    - destruct (remove_header_cases lines potential_headers) as [E|E];
        rewrite E.
      + exists []. split; [reflexivity|simpl; lia].
      + destruct lines as [|l ls]; [exists []|exists [l]];
          (split; [reflexivity|simpl; lia]).
    - exists []. split; [reflexivity|simpl; lia]. }
  assert (H2 : exists rf, lines1 = lines2 ++ rf /\ length rf <= 1).
  { subst lines2. destruct (truthy lines1 && truthy potential_footers).
    - destruct (remove_footer_cases lines1 potential_footers) as [E|E];
        rewrite E.
      + exists []. split; [symmetry; apply app_nil_r|simpl; lia].
      + destruct lines1 as [|l ls] eqn:El.
        * exists []. split; [reflexivity|simpl; lia].
        * exists [last (l :: ls) []]. split; [|simpl; lia].
          apply app_removelast_last. discriminate.
    - exists []. split; [symmetry; apply app_nil_r|simpl; lia]. }
  destruct H1 as (rh & E1 & L1). destruct H2 as (rf & E2 & L2).
  exists rh, lines2, rf. rewrite E1, E2. auto.
Qed.

(** ** The loop over the heap *)

Section Loop.

Variables potential_headers potential_footers : list str.

Abbreviation step := (strip_step potential_headers potential_footers).

Lemma store_same (h : heap) (r : ref) (p : page_data) : store h r p r = p.
Proof. unfold store. rewrite Nat.eqb_refl. reflexivity. Qed.

Lemma store_other (h : heap) (r r' : ref) (p : page_data) :
  r' <> r -> store h r p r' = h r'.
Proof. unfold store. intros H. apply Nat.eqb_neq in H. rewrite H. reflexivity. Qed.

(** A page dictionary that is not in the list is not touched. *)
Lemma loop_frame (pages_data : list ref) (h : heap) (r : ref) :
  ~ In r pages_data -> fold_left step pages_data h r = h r.
Proof.
  revert h. induction pages_data as [|p rest IH]; intros h Hr; [reflexivity|].
  simpl. rewrite IH by (intros H; apply Hr; right; exact H).
  unfold step, strip_step. apply store_other.
  intros E. apply Hr. left. congruence.
Qed.

(** Only the key ["text"] is assigned. *)
Lemma loop_keeps_other_keys (pages_data : list ref) (h : heap) (r : ref) :
  metadata (fold_left step pages_data h r) = metadata (h r) /\
  word_count (fold_left step pages_data h r) = word_count (h r).
Proof.
  revert h. induction pages_data as [|p rest IH]; intros h; [auto|].
  simpl. destruct (IH (step h p)) as [Hm Hw]. rewrite Hm, Hw.
  unfold step, strip_step, store.
  destruct (Nat.eqb r p) eqn:E; [|auto].
  apply Nat.eqb_eq in E. subst. auto.
Qed.

(** When the list holds distinct page dictionaries, each one is rewritten
    once, from its text at entry. *)
Lemma loop_text (pages_data : list ref) (h : heap) (r : ref) :
  NoDup pages_data -> In r pages_data ->
  text (fold_left step pages_data h r)
  = strip_page potential_headers potential_footers (text (h r)).
Proof.
  revert h. induction pages_data as [|p rest IH]; intros h Hnd Hin; [destruct Hin|].
  inversion Hnd as [|? ? Hp Hrest]; subst. simpl.
  destruct (Nat.eq_dec r p) as [->|Hne].
  - rewrite loop_frame by exact Hp.
    unfold step, strip_step. rewrite store_same. reflexivity.
  - destruct Hin as [Hin|Hin]; [congruence|].
    rewrite IH by assumption.
    unfold step, strip_step. rewrite store_other by exact Hne. reflexivity.
Qed.

End Loop.

(** ** The whole function *)

(** The test of the guard at the head of the function. *)
Lemma guard_taken (self : config) (pages_data : list ref) :
  length pages_data < 3 \/ remove_headers_footers self = false ->
  (length pages_data <? 3) || negb (remove_headers_footers self) = true.
Proof.
  intros H. apply orb_true_iff. destruct H as [H|H].
  - left. apply Nat.ltb_lt, H.
  - right. rewrite H. reflexivity.
Qed.

Lemma remove_headers_footers_keeps_metadata (self : config) (h : heap)
    (pages_data : list ref) (r : ref) :
  metadata (fst (_remove_headers_footers self h pages_data) r) = metadata (h r).
Proof.
  unfold _remove_headers_footers. destruct (_ || _); [reflexivity|].
  apply loop_keeps_other_keys.
Qed.

(** ** Normalized pages *)

Lemma lines_of_join (lines : list str) :
  normal_lines lines -> lines_of (join [nl] lines) = lines.
Proof.
  intros H. unfold lines_of. destruct lines as [|l rest] eqn:E; [reflexivity|].
  rewrite <- E in *. assert (Hne : lines <> []) by (subst; discriminate).
  rewrite normal_lines_text by assumption.
  apply normal_lines_split; assumption.
Qed.

(** What [strip_page] does to a normalized page text. *)
Lemma strip_page_normalized (potential_headers potential_footers : list str)
    (text : str) :
  _clean_text text = text ->
  exists removed_head blank_head blank_foot removed_foot,
    lines_of text
    = removed_head ++ blank_head
      ++ lines_of (strip_page potential_headers potential_footers text)
      ++ blank_foot ++ removed_foot /\
    length removed_head <= 1 /\ length removed_foot <= 1 /\
    (blank_head = [] \/ blank_head = [[]] /\ removed_head <> []) /\
    (blank_foot = [] \/ blank_foot = [[]] /\ removed_foot <> []).
Proof.
  intros Hfix.
  destruct (clean_text_shape text) as (lines & Hn & E). rewrite Hfix in E.
  destruct (strip_page_lines potential_headers potential_footers text)
    as (rh & kept & rf & Es & Lh & Lf & ->).
  subst text. destruct lines as [|l0 rest0] eqn:El.
  - (* the empty text *)
    simpl in Es.
    assert (Ek : join [nl] kept = []).
    { destruct rh as [|x rh]; simpl in Es.
      - destruct kept as [|k kept]; [reflexivity|].
        injection Es as <- Es. destruct kept; [reflexivity|discriminate].
      - injection Es as _ Es. destruct rh; [|discriminate].
        destruct kept; [reflexivity|discriminate]. }
    rewrite Ek. exists [], [], [], []. simpl. auto 10.
  - rewrite <- El in *. assert (Hne : lines <> []) by (subst; discriminate).
    clear El. rewrite normal_lines_split in Es by assumption.
    rewrite lines_of_join by exact Hn.
    assert (Hk : tidy_from true kept).
    { destruct Hn as [Ht _]. unfold tidy in Ht. rewrite Es in Ht.
      apply tidy_from_suffix in Ht. apply tidy_from_app in Ht. exact Ht. }
    rewrite strip_join_loose by exact Hk.
    rewrite lines_of_join by (apply trim_blanks_normal, Hk).
    destruct (trim_blanks_split kept) as (bh & bf & Ek & Hbh & Hbf).
    exists rh, bh, bf, rf. split; [|split; [exact Lh|split; [exact Lf|split]]].
    + rewrite Es. rewrite Ek at 1. rewrite <- !app_assoc. reflexivity.
    + destruct Hbh as [Hbh|Hbh]; [left; exact Hbh|right].
      split; [exact Hbh|]. intros ->. subst bh.
      rewrite Ek in Es. simpl in Es. subst lines.
      destruct Hn as [Ht _]. apply tidy_first_text in Ht as [Ht _].
      apply Ht. reflexivity.
    + destruct Hbf as [Hbf|Hbf]; [left; exact Hbf|right].
      split; [exact Hbf|]. intros ->. subst bf.
      rewrite Ek in Es. rewrite app_nil_r in Es.
      destruct Hn as [_ [Hn|Hn]]; [contradiction|].
      rewrite Es in Hn. rewrite !app_assoc in Hn.
      rewrite last_item_snoc in Hn. discriminate.
Qed.

End HeaderFooterFacts.
Import HeaderFooterFacts.

(* ================================================================== *)
(** * Facts about parse_pdf                                            *)
(* ================================================================== *)

Module ParsePdfFacts.

(** Reading the freshly allocated page dictionaries back gives the list
    they were allocated from. *)
Lemma map_nth_seq (l : list page_data) (k : nat) (pre : list page_data) :
  length pre = k ->
  map (fun r => nth r (pre ++ l) blank_page) (seq k (length l)) = l.
Proof.
  revert k pre. induction l as [|x r IH]; intros k pre Hk; [reflexivity|].
  simpl. f_equal.
  - rewrite app_nth2 by lia. rewrite Hk, Nat.sub_diag. reflexivity.
  - replace (pre ++ x :: r) with ((pre ++ [x]) ++ r)
      by (rewrite <- app_assoc; reflexivity).
    apply IH. rewrite length_app. simpl. lia.
Qed.

Lemma alloc_read (pages_data : list page_data) :
  map (fst (alloc pages_data)) (snd (alloc pages_data)) = pages_data.
Proof. unfold alloc. simpl. apply (map_nth_seq pages_data 0 []). reflexivity. Qed.

Lemma alloc_NoDup (pages_data : list page_data) :
  NoDup (snd (alloc pages_data)).
Proof. apply seq_NoDup. Qed.

Lemma alloc_length (pages_data : list page_data) :
  length (snd (alloc pages_data)) = length pages_data.
Proof. apply length_seq. Qed.

(** Every page the loop keeps comes from a page of the document, was long
    enough when it was extracted, and carries that page's number. *)
Lemma collect_pages_In (self : config) (pages : list pdf_page) (i : nat)
    (pd : page_data) :
  In pd (collect_pages self i pages) ->
  exists j page,
    nth_error pages j = Some page /\
    pd = extract_text_from_page self page (i + j) /\
    (min_text_length self <= Z.of_nat (length (text pd)))%Z.
Proof.
  revert i. induction pages as [|page rest IH]; intros i H; [destruct H|].
  simpl in H.
  destruct (min_text_length self <=?
            Z.of_nat (length (text (extract_text_from_page self page i))))%Z
    eqn:E.
  - destruct H as [H|H].
    + exists 0, page. rewrite Nat.add_0_r. subst pd.
      apply Z.leb_le in E. auto.
    + apply IH in H as (j & pg & Hn & Hp & Hl).
      exists (S j), pg. rewrite Nat.add_succ_r. auto.
  - apply IH in H as (j & pg & Hn & Hp & Hl).
    exists (S j), pg. rewrite Nat.add_succ_r. auto.
Qed.

Lemma extract_page_number (self : config) (page : pdf_page) (i : nat) :
  page_number (metadata (extract_text_from_page self page i))
  = (Z.of_nat i + 1)%Z.
Proof.
  unfold extract_text_from_page.
  destruct (if preserve_layout self then _ else _); reflexivity.
Qed.

(** The pages kept are in the order of the document. *)
Lemma collect_pages_sorted (self : config) (pages : list pdf_page) (i : nat) :
  StronglySorted Z.lt (map number_of (collect_pages self i pages)) /\
  Forall (fun n => (Z.of_nat i < n)%Z) (map number_of (collect_pages self i pages)).
Proof.
  revert i. induction pages as [|page rest IH]; intros i.
  - split; constructor.
  - destruct (IH (S i)) as [Hs Hb]. simpl.
    assert (Hb' : Forall (fun n => (Z.of_nat i < n)%Z)
                    (map number_of (collect_pages self (S i) rest))).
    { eapply Forall_impl; [|exact Hb]. intros n Hn. cbv beta in *. lia. }
    destruct (_ <=? _)%Z; [|auto].
    simpl. unfold number_of at 1 3. rewrite extract_page_number. split.
    + constructor; [exact Hs|].
      eapply Forall_impl; [|exact Hb]. intros n Hn. cbv beta in *. lia.
    + constructor; [lia|exact Hb'].
Qed.

(** The result of [parse_pdf], written out. *)
Lemma parse_pdf_result (self : config) (pdf_reader : pdf_reader)
    (doc : parsed_pdf) :
  parse_pdf self (Return pdf_reader) = Return doc ->
  let kept := collect_pages self 0 (reader_pages pdf_reader) in
  let h := fst (_remove_headers_footers self (fst (alloc kept)) (snd (alloc kept))) in
  pages doc = map h (snd (alloc kept)) /\
  processed_pages doc = length kept /\
  full_text doc
  = join nl2 (map text (filter (fun page => truthy (text page)) (pages doc))).
Proof.
  unfold parse_pdf. intros H.
  destruct (alloc (collect_pages self 0 (reader_pages pdf_reader)))
    as [h0 refs] eqn:Ea.
  assert (Hl : length refs = length (collect_pages self 0 (reader_pages pdf_reader))).
  { change refs with (snd (h0, refs)). rewrite <- Ea. apply alloc_length. }
  assert (Hr : snd (_remove_headers_footers self h0 refs) = refs).
  { unfold _remove_headers_footers. destruct (_ || _); reflexivity. }
  simpl. destruct (_remove_headers_footers self h0 refs) as [h1 refs'] eqn:Er.
  simpl in Hr. subst refs'. injection H as <-. simpl.
  rewrite Hl. auto.
Qed.

(** A document that could be read is parsed: [parse_pdf] does not raise. *)
Lemma parse_pdf_returns (self : config) (pdf_reader : pdf_reader) :
  exists doc, parse_pdf self (Return pdf_reader) = Return doc.
Proof.
  unfold parse_pdf.
  destruct (alloc (collect_pages self 0 (reader_pages pdf_reader)))
    as [h refs].
  destruct (_remove_headers_footers self h refs) as [h1 refs1].
  eexists. reflexivity.
Qed.

End ParsePdfFacts.
Import ParsePdfFacts.

(* ================================================================== *)
(** * Facts about the statement parser                                 *)
(* ================================================================== *)

Module StatementFacts.

Section WithRuntime.

Context {case_tables : CaseTables} {regex : Regex}.

Lemma lower_from_stable (before w rest : str) :
  Forall lower_stable w ->
  lower_from before (w ++ rest) = w ++ lower_from (before ++ w) rest.
Proof.
  intros H. revert before. induction H as [|c r [Hc Hs] _ IH]; intros before.
  - simpl. rewrite app_nil_r. reflexivity.
  - simpl. destruct (c =? 931)%N eqn:E.
    + apply N.eqb_eq in E. subst c. discriminate.
    + rewrite to_lower_full_ascii by exact Hc. rewrite Hs, IH.
      rewrite <- app_assoc. reflexivity.
Qed.

(** A lower-case ASCII word of the text is still there after [lower]. *)
Lemma lower_from_keeps_word (before a w b : str) :
  Forall lower_stable w ->
  exists x y, lower_from before (a ++ w ++ b) = x ++ w ++ y.
Proof.
  intros Hw. revert before. induction a as [|c r IH]; intros before.
  - exists [], (lower_from (before ++ w) b). simpl.
    apply lower_from_stable, Hw.
  - destruct (IH (before ++ [c])) as (x & y & E). simpl. rewrite E.
    eexists (_ ++ x), y. rewrite <- app_assoc. reflexivity.
Qed.

Lemma lower_keeps_word (w text : str) :
  Forall lower_stable w ->
  contains w text = true -> contains w (lower text) = true.
Proof.
  intros Hw H. apply contains_spec in H as (a & b & ->).
  apply contains_spec. apply lower_from_keeps_word, Hw.
Qed.

(** On ASCII text [lower] is [ascii_lower] on every character, whatever the
    other entries of the case tables are. *)
Lemma lower_from_ascii (before s : str) :
  Forall (fun c => (c < 128)%N) s -> lower_from before s = map ascii_lower s.
Proof.
  intros H. revert before. induction H as [|c r Hc _ IH]; intros before.
  - reflexivity.
  - simpl. destruct (c =? 931)%N eqn:E.
    + apply N.eqb_eq in E. subst c. discriminate.
    + rewrite to_lower_full_ascii by exact Hc. rewrite IH. reflexivity.
Qed.

Lemma detect_issuer_ascii (text : str) :
  Forall (fun c => (c < 128)%N) text ->
  _detect_issuer text = detect_in issuers (map ascii_lower text).
Proof.
  intros H. unfold _detect_issuer, lower. rewrite lower_from_ascii by exact H.
  reflexivity.
Qed.

Lemma py_purchases_stable : Forall lower_stable (py "purchases").
Proof. repeat constructor. Qed.

Lemma chase_in_purchases (s : str) :
  contains (py "purchases") s = true -> contains (py "chase") s = true.
Proof.
  intros H. apply contains_spec in H as (a & b & ->).
  apply contains_spec. exists (a ++ py "pur"), (py "s" ++ b).
  rewrite <- !app_assoc. reflexivity.
Qed.

(** The example sentence is classified as Chase whatever the case tables
    say outside ASCII. *)
Lemma purchases_sentence_issuer :
  _detect_issuer purchases_sentence = py "Chase".
Proof.
  rewrite detect_issuer_ascii; [reflexivity|].
  apply Forall_forall. intros c Hc. apply N.ltb_lt.
  revert c Hc. apply Forall_forall. repeat constructor.
Qed.

(** [parse_statement] returns exactly when the document could be parsed,
    and then it returns the extracted fields: the dictionary with the key
    ["error"] is never returned. *)
Lemma parse_statement_returns (datetime_now : str) (pdf_reader : pdf_reader) :
  exists d, parse_statement datetime_now (Return pdf_reader)
            = Return (Extracted d).
Proof.
  unfold parse_statement.
  destruct (parse_pdf_returns pdf_parser pdf_reader) as [doc ->].
  eexists. reflexivity.
Qed.

Lemma parse_statement_no_error_record (datetime_now : str)
    (file : outcome pdf_reader) (d : error_data) :
  parse_statement datetime_now file <> Return (Failed d).
Proof.
  unfold parse_statement.
  destruct (parse_pdf pdf_parser file); simpl; discriminate.
Qed.

End WithRuntime.

End StatementFacts.
Import StatementFacts.

(* ================================================================== *)
(** * The properties of the design document                            *)
(* ================================================================== *)

(** ** PageNormalizer *)

(** C5. Normalization is idempotent: normalizing the output of
    [_clean_text] returns it unchanged. *)
Theorem clean_text_idempotent (t : str) :
  _clean_text (_clean_text t) = _clean_text t.
Proof.
  destruct (clean_text_shape t) as (lines & Hn & ->).
  apply clean_text_fixed, Hn.
Qed.

(** C6. The output of [_clean_text] never contains three consecutive line
    feeds, and the empty text is normalized to the empty text. *)
Theorem clean_text_no_triple_newline (t : str) :
  contains nl3 (_clean_text t) = false /\
  (forall a b, _clean_text t <> a ++ [nl; nl; nl] ++ b) /\
  _clean_text [] = [].
Proof.
  assert (H : contains nl3 (_clean_text t) = false).
  { destruct (clean_text_shape t) as (lines & [Ht _] & ->).
    apply tidy_join_no_nl3, Ht. }
  split; [exact H|]. split; [|reflexivity].
  intros a b E.
  assert (H' : contains nl3 (_clean_text t) = true)
    by (apply contains_spec; exists a, b; exact E).
  congruence.
Qed.

(** ** HeaderFooterDetector *)

(** C7. With fewer than three pages, or with the feature switched off,
    [_remove_headers_footers] returns the list it was given and leaves the
    heap as it is. *)
Theorem remove_headers_footers_noop (self : config) (h : heap)
    (pages_data : list ref) :
  length pages_data < 3 \/ remove_headers_footers self = false ->
  _remove_headers_footers self h pages_data = (h, pages_data).
Proof.
  intros H. unfold _remove_headers_footers.
  rewrite (guard_taken self pages_data H). reflexivity.
Qed.

Lemma remove_headers_footers_noop_witness :
  (length [0; 1] < 3 \/ remove_headers_footers default_config = false) /\
  _remove_headers_footers default_config letter_heap [0; 1]
  = (letter_heap, [0; 1]).
Proof.
  assert (H : length [0; 1] < 3 \/ remove_headers_footers default_config = false)
    by (left; simpl; lia).
  split; [exact H|].
  apply (remove_headers_footers_noop default_config letter_heap [0; 1] H).
Defined.

(** C3, as stated, fails: on three normalized pages "STATEMENT", blank line,
    body, the first page loses its header and the blank line after it, two
    lines at the start. *)
Lemma header_removal_loses_two_lines :
  Forall (fun r => _clean_text (text (letter_heap r)) = text (letter_heap r))
         letter_refs /\
  lines_of (text (letter_heap 0)) = [py "STATEMENT"; []; py "Body one"] /\
  lines_of (text (fst (_remove_headers_footers default_config letter_heap
                         letter_refs) 0))
  = [py "Body one"] /\
  ~ loses_at_most_one_line_each_end
      (text (letter_heap 0))
      (text (fst (_remove_headers_footers default_config letter_heap
                    letter_refs) 0)).
Proof.
  split; [repeat constructor|]. split; [reflexivity|]. split; [reflexivity|].
  intros (rh & rf & E & Hh & Hf). vm_compute in E.
  destruct rh as [|x [|y rh]]; simpl in Hh; try lia; discriminate E.
Qed.

(** C3, amended. For a list of distinct, normalized pages, each page loses
    at most one line at the start (the header) and at most one at the end
    (the footer), and besides these only the empty line next to a removed
    line, which the final [strip] takes away. *)
Theorem header_footer_removal_one_line_each_end (self : config) (h : heap)
    (pages_data : list ref) :
  NoDup pages_data ->
  Forall (fun r => _clean_text (text (h r)) = text (h r)) pages_data ->
  Forall (fun r =>
    let after := text (fst (_remove_headers_footers self h pages_data) r) in
    exists removed_head blank_head blank_foot removed_foot,
      lines_of (text (h r))
      = removed_head ++ blank_head ++ lines_of after
        ++ blank_foot ++ removed_foot /\
      length removed_head <= 1 /\ length removed_foot <= 1 /\
      (blank_head = [] \/ blank_head = [[]] /\ removed_head <> []) /\
      (blank_foot = [] \/ blank_foot = [[]] /\ removed_foot <> []))
    pages_data.
Proof.
  intros Hnd Hnorm. apply Forall_forall. intros r Hr. cbv zeta.
  rewrite Forall_forall in Hnorm. specialize (Hnorm r Hr).
  unfold _remove_headers_footers.
  destruct ((length pages_data <? 3) || negb (remove_headers_footers self)).
  - exists [], [], [], []. simpl. rewrite app_nil_r. auto 10.
  - simpl fst. rewrite loop_text by assumption.
    apply strip_page_normalized, Hnorm.
Qed.

Lemma header_footer_removal_one_line_each_end_witness :
  NoDup letter_refs /\
  Forall (fun r => _clean_text (text (letter_heap r)) = text (letter_heap r))
         letter_refs /\
  Forall (fun r =>
    let after := text (fst (_remove_headers_footers default_config
                              letter_heap letter_refs) r) in
    exists removed_head blank_head blank_foot removed_foot,
      lines_of (text (letter_heap r))
      = removed_head ++ blank_head ++ lines_of after
        ++ blank_foot ++ removed_foot /\
      length removed_head <= 1 /\ length removed_foot <= 1 /\
      (blank_head = [] \/ blank_head = [[]] /\ removed_head <> []) /\
      (blank_foot = [] \/ blank_foot = [[]] /\ removed_foot <> []))
    letter_refs.
Proof.
  assert (H : NoDup letter_refs) by apply (seq_NoDup 3 0).
  assert (H' : Forall (fun r => _clean_text (text (letter_heap r))
                                = text (letter_heap r)) letter_refs)
    by (repeat constructor).
  split; [exact H|]. split; [exact H'|].
  apply (header_footer_removal_one_line_each_end default_config letter_heap
           letter_refs H H').
Defined.

(** C4, as stated, fails: after the call the first page dictionary passed in
    is not what it was. *)
Lemma header_removal_changes_its_input :
  In 0 letter_refs /\
  text (letter_heap 0)
  = lines_text ["STATEMENT"; EmptyString; "Body one"]%string /\
  text (fst (_remove_headers_footers default_config letter_heap letter_refs) 0)
  = py "Body one" /\
  fst (_remove_headers_footers default_config letter_heap letter_refs) 0
  <> letter_heap 0.
Proof.
  split; [left; reflexivity|]. split; [reflexivity|]. split; [reflexivity|].
  intros E. apply (f_equal text) in E. vm_compute in E. discriminate E.
Qed.

(** C4, amended. [_remove_headers_footers] returns the list it was given and
    assigns only the key ["text"] of the page dictionaries in that list: the
    metadata and the word count of every page dictionary, and every page
    dictionary that is not in the list, are as before the call. *)
Theorem header_footer_removal_assigns_text_only (self : config) (h : heap)
    (pages_data : list ref) :
  let result := _remove_headers_footers self h pages_data in
  snd result = pages_data /\
  (forall r, metadata (fst result r) = metadata (h r) /\
             word_count (fst result r) = word_count (h r)) /\
  (forall r, ~ In r pages_data -> fst result r = h r).
Proof.
  cbv zeta. unfold _remove_headers_footers.
  destruct ((length pages_data <? 3) || negb (remove_headers_footers self));
    simpl; [auto|].
  split; [reflexivity|]. split.
  - intros r. apply loop_keeps_other_keys.
  - intros r Hr. apply loop_frame, Hr.
Qed.

(** ** DocumentAssembler *)

(** C2, as stated, fails: with the default configuration and three pages
    that consist of the same line, the pages of the document are empty,
    below the minimum of 10 characters. *)
Lemma stripped_page_below_minimum :
  exists doc,
    parse_pdf default_config (Return cover_pages) = Return doc /\
    map text (pages doc) = [[]; []; []] /\
    ~ Forall (fun p => (min_text_length default_config
                        <= Z.of_nat (length (text p)))%Z)
             (pages doc).
Proof.
  eexists. split; [reflexivity|]. split; [reflexivity|].
  intros H. inversion H as [|? ? Hp _]. vm_compute in Hp. apply Hp. reflexivity.
Qed.

(** C2, amended. A readable document is parsed, and every page of the
    result comes from a page of the document whose normalized text, as
    extracted and before the removal of headers and footers, has at least
    [min_text_length] characters; the text in the result is that text when
    the removal does not apply (feature off, or fewer than three pages
    kept). *)
Theorem retained_pages_long_enough_when_selected (self : config)
    (pdf_reader : pdf_reader) :
  exists doc,
    parse_pdf self (Return pdf_reader) = Return doc /\
    Forall (fun p =>
      exists i page,
        nth_error (reader_pages pdf_reader) i = Some page /\
        let extracted := extract_text_from_page self page i in
        metadata p = metadata extracted /\
        (min_text_length self <= Z.of_nat (length (text extracted)))%Z /\
        (remove_headers_footers self = false \/ processed_pages doc < 3 ->
         text p = text extracted))
      (pages doc).
Proof.
  destruct (parse_pdf_returns self pdf_reader) as [doc E].
  exists doc. split; [exact E|].
  destruct (parse_pdf_result self pdf_reader doc E) as (Hp & Hn & _).
  set (kept := collect_pages self 0 (reader_pages pdf_reader)) in *.
  rewrite Hp. apply Forall_forall. intros p Hin.
  apply in_map_iff in Hin as (k & <- & Hk).
  apply in_seq in Hk. simpl in Hk.
  assert (Hkept : In (nth k kept blank_page) kept) by (apply nth_In; lia).
  apply collect_pages_In in Hkept as (i & page & Hi & Hx & Hlen).
  simpl in Hx. exists i, page. split; [exact Hi|]. cbv zeta.
  rewrite <- Hx. split; [|split; [exact Hlen|]].
  - apply remove_headers_footers_keeps_metadata.
  - intros Hoff. unfold _remove_headers_footers.
    rewrite guard_taken; [reflexivity|].
    destruct Hoff as [Hoff|Hoff]; [right; exact Hoff|left].
    rewrite alloc_length. fold kept. lia.
Qed.

(** C8. The full text of a parsed document is the join, by two line feeds
    and in the order of the pages, of the non-empty texts of the pages of
    the result; the count of processed pages is the length of that list of
    pages, whose page numbers increase. *)
Theorem full_text_is_join_of_pages (self : config) (pdf_reader : pdf_reader) :
  exists doc,
    parse_pdf self (Return pdf_reader) = Return doc /\
    full_text doc
    = join [nl; nl]
        (map text (filter (fun page => truthy (text page)) (pages doc))) /\
    processed_pages doc = length (pages doc) /\
    StronglySorted Z.lt (map number_of (pages doc)).
Proof.
  destruct (parse_pdf_returns self pdf_reader) as [doc E].
  exists doc. split; [exact E|].
  destruct (parse_pdf_result self pdf_reader doc E) as (Hp & Hn & Hf).
  set (kept := collect_pages self 0 (reader_pages pdf_reader)) in *.
  split; [exact Hf|]. split.
  - rewrite Hp, length_map, alloc_length. exact Hn.
  - assert (Hnum : map number_of (pages doc) = map number_of kept).
    { rewrite Hp, map_map.
      rewrite <- (alloc_read kept) at 2. rewrite map_map.
      apply map_ext. intros r. unfold number_of.
      rewrite remove_headers_footers_keeps_metadata. reflexivity. }
    rewrite Hnum. apply collect_pages_sorted.
Qed.

(** ** FieldExtractor and IssuerClassifier *)

(** C9. [_extract_transactions] returns the dictionaries of the first five
    matches of the pattern, in the order [re.findall] gives them: at most
    five transactions, each with a description without white space at
    either end and an amount that starts with the dollar sign. *)
Theorem extract_transactions_first_five {regex : Regex} (text : str) :
  let found := _extract_transactions text in
  length found <= 5 /\
  found = map transaction_of
            (firstn 5 (re_findall transaction_pattern M_ text)) /\
  Forall (fun t => strip (description t) = description t /\
                   head_ok (description t) = true /\
                   last_ok (description t) = true /\
                   startswith (amount t) (py "$") = true) found.
Proof.
  cbv zeta. unfold _extract_transactions.
  set (matches := re_findall transaction_pattern M_ text).
  assert (E : (if truthy (map transaction_of (firstn 5 matches))
               then map transaction_of (firstn 5 matches) else [])
              = map transaction_of (firstn 5 matches)).
  { destruct (map transaction_of (firstn 5 matches)); reflexivity. }
  rewrite E. split; [|split; [reflexivity|]].
  - rewrite length_map. apply firstn_le_length.
  - apply Forall_forall. intros t Ht.
    apply in_map_iff in Ht as (m & <- & _). unfold transaction_of. simpl.
    split; [apply strip_idempotent|].
    split; [apply head_ok_strip|]. split; [apply last_ok_strip|].
    destruct (startswith (group m 2) (py "$")) eqn:Es; [exact Es|].
    apply startswith_spec. exists (group m 2). reflexivity.
Qed.

(** C10. A text that contains the word "purchases" and, once in lower case,
    neither keyword of American Express is classified as Chase: "chase" is
    a substring of "purchases". *)
Theorem purchases_classified_as_chase {case_tables : CaseTables} (text : str) :
  contains (py "purchases") text = true ->
  contains (py "american express") (lower text) = false ->
  contains (py "amex") (lower text) = false ->
  _detect_issuer text = py "Chase".
Proof.
  intros Hp Hae Hax.
  apply (lower_keeps_word _ _ py_purchases_stable) in Hp.
  apply chase_in_purchases in Hp.
  unfold _detect_issuer, issuers, detect_in, any_keyword.
  rewrite Hae, Hax, Hp. reflexivity.
Qed.

Lemma purchases_classified_as_chase_witness :
  contains (py "purchases") purchases_sentence = true /\
  contains (py "american express") (lower purchases_sentence) = false /\
  contains (py "amex") (lower purchases_sentence) = false /\
  _detect_issuer purchases_sentence = py "Chase".
Proof.
  assert (H1 : contains (py "purchases") purchases_sentence = true)
    by reflexivity.
  assert (H2 : contains (py "american express") (lower purchases_sentence)
               = false) by reflexivity.
  assert (H3 : contains (py "amex") (lower purchases_sentence) = false)
    by reflexivity.
  repeat (split; [assumption|]).
  apply (purchases_classified_as_chase purchases_sentence H1 H2 H3).
Defined.

(** ** ExtractionResult Builder *)

(** C1 fails on the code. When [parse_pdf] raises, the handler of
    [parse_statement] evaluates [time.now()] while it builds the error
    dictionary, and the [AttributeError] this raises leaves
    [parse_statement]: no dictionary is returned. *)
Theorem parse_statement_raises_in_handler {case_tables : CaseTables}
    {regex : Regex} (datetime_now : str) (e : exc) :
  parse_statement datetime_now (Raise e)
  = Raise {| exc_class := "AttributeError";
             exc_message := py "module 'time' has no attribute 'now'" |}.
Proof. reflexivity. Qed.

(* ================================================================== *)
(** * Further facts about the normalizer                               *)
(* ================================================================== *)

Module NormalizerFacts.

(** ** Lengths *)

Lemma lstrip_length (s : str) : length (lstrip s) <= length s.
Proof.
  destruct (lstrip_suffix s) as [pre E]. rewrite E at 2.
  rewrite length_app. lia.
Qed.

Lemma strip_length (s : str) : length (strip s) <= length s.
Proof.
  unfold strip, rstrip. rewrite length_rev.
  etransitivity; [apply lstrip_length|]. rewrite length_rev.
  apply lstrip_length.
Qed.

Lemma join_length (parts : list str) :
  length (join [nl] parts)
  = list_sum (map (@length char) parts) + (length parts - 1).
Proof.
  induction parts as [|p rest IH]; [reflexivity|].
  destruct rest as [|q rest'].
  - simpl. lia.
  - rewrite join_cons by discriminate. rewrite !length_app, IH.
    simpl. lia.
Qed.

(** [lia] after the names of the string types are unfolded. *)
Ltac len_lia := unfold str, char in *; simpl in *; lia.

Lemma clean_step_size (cleaned_lines : list str) (line : str) :
  list_sum (map (@length char) (clean_step cleaned_lines line))
  <= list_sum (map (@length char) cleaned_lines) + length line /\
  length (clean_step cleaned_lines line) <= S (length cleaned_lines).
Proof.
  unfold clean_step. pose proof (strip_length line) as Hs.
  destruct (truthy (strip line)).
  - rewrite map_app, list_sum_app, length_app. len_lia.
  - destruct (_ && _).
    + rewrite map_app, list_sum_app, length_app. len_lia.
    + len_lia.
Qed.

Lemma fold_clean_size (lines cleaned_lines : list str) :
  list_sum (map (@length char) (fold_left clean_step lines cleaned_lines))
  <= list_sum (map (@length char) cleaned_lines)
     + list_sum (map (@length char) lines) /\
  length (fold_left clean_step lines cleaned_lines)
  <= length cleaned_lines + length lines.
Proof.
  revert cleaned_lines. induction lines as [|l rest IH]; intros acc.
  - simpl. lia.
  - destruct (IH (clean_step acc l)) as [H1 H2].
    destruct (clean_step_size acc l) as [H3 H4].
    change (fold_left clean_step (l :: rest) acc)
      with (fold_left clean_step rest (clean_step acc l)).
    split; [|simpl length; lia].
    etransitivity; [exact H1|]. simpl map. simpl list_sum.
    unfold str, char in *. lia.
Qed.

(** ** Empty output *)

Lemma lstrip_nil_iff (s : str) : lstrip s = [] <-> forallb is_space s = true.
Proof.
  induction s as [|c r IH]; simpl; [tauto|].
  destruct (is_space c); simpl; [exact IH|]. split; discriminate.
Qed.

Lemma strip_nil_iff (s : str) : strip s = [] <-> forallb is_space s = true.
Proof.
  rewrite <- lstrip_nil_iff. unfold strip. split.
  - intros H. pose proof (head_ok_lstrip s) as Hh.
    destruct (lstrip s) as [|c r] eqn:E; [reflexivity|].
    exfalso. unfold rstrip in H.
    apply (f_equal (@rev char)) in H. rewrite rev_involutive in H.
    change (rev []) with (@nil char) in H. apply lstrip_nil_iff in H.
    rewrite forallb_forall in H. specialize (H c).
    rewrite <- in_rev in H. simpl in Hh.
    rewrite H in Hh by (left; reflexivity). discriminate.
  - intros ->. reflexivity.
Qed.

Lemma forallb_join (lines : list str) :
  Forall (fun l => forallb is_space l = true) lines ->
  forallb is_space (join [nl] lines) = true.
Proof.
  induction 1 as [|l rest Hl _ IH]; [reflexivity|].
  destruct rest as [|l' rest']; [exact Hl|].
  rewrite join_cons by discriminate. rewrite !forallb_app, Hl, IH.
  reflexivity.
Qed.

Lemma forallb_split (s : str) :
  forallb is_space s = true ->
  Forall (fun l => forallb is_space l = true) (split nl s).
Proof.
  induction s as [|c r IH]; simpl; intros H.
  - repeat constructor.
  - apply andb_true_iff in H as [Hc Hr]. specialize (IH Hr).
    destruct (char_eqb c nl); [constructor; [reflexivity|exact IH]|].
    destruct (split nl r) as [|l ls]; [repeat constructor; simpl; rewrite Hc; reflexivity|].
    inversion IH; subst. constructor; [simpl; rewrite Hc; assumption|assumption].
Qed.

Lemma clean_step_nil (cleaned_lines : list str) (line : str) :
  clean_step cleaned_lines line = [] <->
  cleaned_lines = [] /\ strip line = [].
Proof.
  unfold clean_step. destruct (truthy (strip line)) eqn:E.
  - apply truthy_true in E. split.
    + intros H. destruct cleaned_lines; discriminate.
    + intros [_ H]. contradiction.
  - apply truthy_false in E. destruct cleaned_lines as [|c rest].
    + simpl. tauto.
    + destruct (_ && _); split; try discriminate; intros [H _]; discriminate.
Qed.

Lemma fold_clean_nil (lines cleaned_lines : list str) :
  fold_left clean_step lines cleaned_lines = [] <->
  cleaned_lines = [] /\ Forall (fun l => strip l = []) lines.
Proof.
  revert cleaned_lines. induction lines as [|l rest IH]; intros acc; simpl.
  - split; [intros ->; auto|tauto].
  - rewrite IH, clean_step_nil. split.
    + intros [[Ha Hl] Hr]. auto.
    + intros [Ha Hr]. inversion Hr; subst. auto.
Qed.

Lemma tidy_join_nil (lines : list str) :
  tidy lines -> join [nl] (trim_blank lines) = [] -> lines = [].
Proof.
  intros Ht H. destruct lines as [|l rest]; [reflexivity|exfalso].
  pose proof (tidy_first_text l rest Ht) as [Hl _].
  unfold trim_blank in H.
  destruct (truthy (last_item (l :: rest))) eqn:E.
  - destruct rest; [|rewrite join_cons in H by discriminate];
      destruct l; try contradiction; discriminate.
  - destruct rest as [|l' rest'].
    + simpl in E. apply truthy_false in E. contradiction.
    + change (removelast (l :: l' :: rest'))
        with (l :: removelast (l' :: rest')) in H.
      destruct (removelast (l' :: rest'));
        [|rewrite join_cons in H by discriminate];
        destruct l; try contradiction; discriminate.
Qed.

(** The text handed to the [while] loop, and what becomes of it. *)
Lemma clean_text_unfold (text : str) :
  text <> [] ->
  let cleaned_lines := fold_left clean_step (split nl text) [] in
  tidy cleaned_lines /\
  _clean_text text = join [nl] (trim_blank cleaned_lines).
Proof.
  intros Hne. cbv zeta.
  assert (Ht : tidy (fold_left clean_step (split nl text) []))
    by (apply fold_clean_tidy; [apply split_no_sep | exact I]).
  split; [exact Ht|]. unfold _clean_text.
  destruct text; [contradiction|]. simpl negb. cbv iota.
  rewrite collapse_fixed by (apply tidy_join_no_nl3, Ht).
  apply strip_join_tidy, Ht.
Qed.

(** ** Words *)

Lemma words_from_cur (cur s : str) : cur <> [] -> words_from cur s <> [].
Proof.
  revert cur. induction s as [|c r IH]; intros cur H; simpl.
  - destruct cur; [contradiction|discriminate].
  - destruct (is_space c).
    + destruct cur; [contradiction|discriminate].
    + apply IH. destruct cur; discriminate.
Qed.

Lemma split_ws_head_ok (s : str) :
  s <> [] -> head_ok s = true -> split_ws s <> [].
Proof.
  destruct s as [|c r]; [contradiction|]. intros _ H. simpl in H.
  apply negb_true_iff in H. unfold split_ws. simpl. rewrite H.
  apply words_from_cur. discriminate.
Qed.

Lemma clean_text_head_ok (text : str) : head_ok (_clean_text text) = true.
Proof.
  destruct (clean_text_shape text) as (lines & [Ht _] & ->).
  apply join_head_ok, Ht.
Qed.

Lemma clean_text_twice (text : str) :
  _clean_text (_clean_text text) = _clean_text text.
Proof.
  destruct (clean_text_shape text) as (lines & Hn & ->).
  apply clean_text_fixed, Hn.
Qed.

End NormalizerFacts.
Import NormalizerFacts.

(* ================================================================== *)
(** * Further properties of the code                                   *)
(* ================================================================== *)

(** ** _clean_text *)

(** X1. [_clean_text] never returns a text longer than the one it is
    given. *)
Theorem clean_text_never_longer (t : str) :
  length (_clean_text t) <= length t.
Proof.
  destruct t as [|c r] eqn:E; [simpl; lia|]. rewrite <- E.
  assert (Hne : t <> []) by (subst; discriminate). clear E c r.
  destruct (clean_text_unfold t Hne) as [Ht ->].
  set (cleaned := fold_left clean_step (split nl t) []) in *.
  rewrite <- strip_join_tidy by exact Ht.
  etransitivity; [apply strip_length|].
  rewrite <- (join_split nl t) at 1. rewrite !join_length.
  destruct (fold_clean_size (split nl t) []) as [H1 H2]. fold cleaned in H1, H2.
  simpl in H1, H2. unfold str, char in *. lia.
Qed.

(** X2. In the output of [_clean_text] no line starts or ends with white
    space, and neither does the output as a whole. *)
Theorem clean_text_lines_stripped (t : str) :
  Forall (fun line => strip line = line) (split nl (_clean_text t)) /\
  strip (_clean_text t) = _clean_text t.
Proof.
  destruct (clean_text_shape t) as (lines & Hn & ->).
  pose proof Hn as [Ht Hend]. split.
  - destruct lines as [|l rest] eqn:E; [simpl; repeat constructor|].
    rewrite <- E in *. assert (Hne : lines <> []) by (subst; discriminate).
    rewrite normal_lines_split by assumption.
    eapply Forall_impl; [|apply (tidy_from_lines _ _ Ht)].
    intros x Hx. apply line_ok_fixed, Hx.
  - rewrite strip_join_tidy by exact Ht. unfold trim_blank.
    destruct Hend as [Hend | Hend]; rewrite Hend; reflexivity.
Qed.

(** X3. [_clean_text] returns the empty text exactly for the texts made of
    white space only (the empty text among them). *)
Theorem clean_text_empty_iff (t : str) :
  _clean_text t = [] <-> forallb is_space t = true.
Proof.
  destruct t as [|c r] eqn:E; [simpl; tauto|]. rewrite <- E.
  assert (Hne : t <> []) by (subst; discriminate). clear E c r.
  destruct (clean_text_unfold t Hne) as [Ht ->]. split.
  - intros H. apply tidy_join_nil in H; [|exact Ht].
    apply fold_clean_nil in H as [_ H].
    rewrite <- (join_split nl t). apply forallb_join.
    eapply Forall_impl; [|exact H]. intros l. apply strip_nil_iff.
  - intros H. apply forallb_split in H.
    assert (E : fold_left clean_step (split nl t) [] = []).
    { apply fold_clean_nil. split; [reflexivity|].
      eapply Forall_impl; [|exact H]. intros l. apply strip_nil_iff. }
    rewrite E. reflexivity.
Qed.

(** X4. The [while] loop of [_clean_text] ends on every text: after at most
    as many iterations as the text has characters its test fails, and
    allowing more iterations changes nothing. *)
Theorem replace_loop_terminates (s : str) (more : nat) :
  contains nl3 (collapse_loop (length s + more) s) = false /\
  collapse_loop (length s + more) s = collapse s.
Proof.
  split.
  - apply collapse_loop_terminates. lia.
  - apply collapse_loop_fuel. lia.
Qed.

(** X5. In [_clean_text] the body of that loop is never run: the joined
    [cleaned_lines] never hold three line feeds in a row. *)
Theorem replace_loop_never_entered (t : str) :
  let cleaned_text := join [nl] (fold_left clean_step (split nl t) []) in
  contains nl3 cleaned_text = false /\ collapse cleaned_text = cleaned_text.
Proof.
  cbv zeta.
  assert (H : contains nl3 (join [nl] (fold_left clean_step (split nl t) []))
              = false).
  { apply tidy_join_no_nl3, fold_clean_tidy; [apply split_no_sep | exact I]. }
  split; [exact H|apply collapse_fixed, H].
Qed.

(** ** extract_text_from_page *)

(** X6. The page dictionary of [extract_text_from_page] holds a normalized
    text, its word count is the number of words of that text, and the count
    is zero exactly when the text is empty. *)
Theorem extract_page_text_and_words (self : config) (page : pdf_page)
    (page_num : nat) :
  let page_data := extract_text_from_page self page page_num in
  _clean_text (text page_data) = text page_data /\
  word_count page_data = length (split_ws (text page_data)) /\
  (word_count page_data = 0 <-> text page_data = []).
Proof.
  cbv zeta. unfold extract_text_from_page.
  destruct (if preserve_layout self then _ else _) as [raw|e]; simpl.
  - split; [apply clean_text_twice|].
    destruct (_clean_text raw) as [|c r] eqn:E; simpl; [tauto|].
    split; [reflexivity|]. split; [|discriminate].
    intros H. exfalso.
    apply (split_ws_head_ok (c :: r)); [discriminate| |].
    + rewrite <- E. apply clean_text_head_ok.
    + destruct (split_ws (c :: r)); [reflexivity|discriminate].
  - repeat split; reflexivity.
Qed.

(* ================================================================== *)
(** * Further facts about header and footer removal                    *)
(* ================================================================== *)

Module RemovalFacts.

Lemma first_line_hd (text : str) : first_line text = hd [] (split nl text).
Proof. destruct text; reflexivity. Qed.

Lemma last_line_last (text : str) :
  last_line text = last_item (split nl text).
Proof. destruct text; reflexivity. Qed.

Lemma count_In (x : str) (l : list str) : 0 < count x l -> In x l.
Proof.
  unfold count. induction l as [|y r IH]; simpl; [lia|].
  destruct (str_eqb x y) eqn:E.
  - intros _. left. symmetry. apply str_eqb_eq, E.
  - intros H. right. apply IH, H.
Qed.

Lemma frequent_In (x : str) (lines : list str) (total : nat) :
  In x (frequent lines total) <->
  In x lines /\ over_half (count x lines) total = true /\
  truthy (strip x) = true.
Proof.
  unfold frequent. rewrite filter_In, set_of_In, andb_true_iff. tauto.
Qed.

Lemma over_half_In (x : str) (lines : list str) (total : nat) :
  over_half (count x lines) total = true -> In x lines.
Proof.
  unfold over_half. intros H. apply Nat.ltb_lt in H. apply count_In. lia.
Qed.

Lemma remove_header_hit (lines potential_headers : list str) (header : str) :
  In header potential_headers ->
  strip (hd [] lines) = strip header ->
  remove_header lines potential_headers = drop_first lines.
Proof.
  intros Hin Hs. induction potential_headers as [|x rest IH]; [destruct Hin|].
  simpl. destruct (str_eqb (strip (hd [] lines)) (strip x)) eqn:E;
    [reflexivity|].
  destruct Hin as [->|Hin]; [|apply IH, Hin].
  rewrite Hs, str_eqb_refl in E. discriminate.
Qed.

Lemma remove_header_miss (lines potential_headers : list str) :
  Forall (fun header => strip (hd [] lines) <> strip header)
         potential_headers ->
  remove_header lines potential_headers = lines.
Proof.
  induction 1 as [|x rest Hx _ IH]; [reflexivity|]. simpl.
  apply str_eqb_neq in Hx. rewrite Hx. exact IH.
Qed.

Lemma remove_footer_miss (lines potential_footers : list str) :
  Forall (fun footer => strip (last_item lines) <> strip footer)
         potential_footers ->
  remove_footer lines potential_footers = lines.
Proof.
  induction 1 as [|x rest Hx _ IH]; [reflexivity|]. simpl.
  apply str_eqb_neq in Hx. rewrite Hx. exact IH.
Qed.

(** The guard does not return early. *)
Lemma guard_passed (self : config) (pages_data : list ref) :
  remove_headers_footers self = true -> 3 <= length pages_data ->
  (length pages_data <? 3) || negb (remove_headers_footers self) = false.
Proof.
  intros -> H. simpl. rewrite orb_false_r. apply Nat.ltb_ge, H.
Qed.

(** ** Normalized page texts *)

Lemma clean_text_strip_fixed (t : str) :
  strip (_clean_text t) = _clean_text t.
Proof.
  destruct (clean_text_shape t) as (lines & [Ht Hend] & ->).
  rewrite strip_join_tidy by exact Ht. unfold trim_blank.
  destruct Hend as [Hend | Hend]; rewrite Hend; reflexivity.
Qed.

Lemma normalized_lines (t : str) :
  _clean_text t = t -> Forall (fun l => strip l = l) (split nl t).
Proof.
  intros Hfix. destruct (clean_text_shape t) as (lines & Hn & E).
  rewrite Hfix in E. subst t. pose proof Hn as [Ht _].
  destruct lines as [|l rest] eqn:El; [simpl; repeat constructor|].
  rewrite <- El in *. assert (Hne : lines <> []) by (subst; discriminate).
  rewrite normal_lines_split by assumption.
  eapply Forall_impl; [|apply (tidy_from_lines _ _ Ht)].
  intros x Hx. apply line_ok_fixed, Hx.
Qed.

Lemma normalized_first_line (t : str) :
  _clean_text t = t -> strip (first_line t) = first_line t.
Proof.
  intros H. apply normalized_lines in H. rewrite first_line_hd.
  destruct (split nl t) as [|l ls]; [reflexivity|].
  inversion H; assumption.
Qed.

Lemma normalized_last_line (t : str) :
  _clean_text t = t -> strip (last_line t) = last_line t.
Proof.
  intros H. apply normalized_lines in H. rewrite last_line_last.
  pose proof (split_not_nil nl t) as Hne.
  destruct (exists_last Hne) as (front & x & E). rewrite E in *.
  rewrite last_item_snoc. apply Forall_app in H as [_ H].
  inversion H; assumption.
Qed.

(** [strip_page] keeps a normalized text normalized. *)
Lemma strip_page_shape (potential_headers potential_footers : list str)
    (t : str) :
  _clean_text t = t ->
  exists lines,
    normal_lines lines /\
    strip_page potential_headers potential_footers t = join [nl] lines.
Proof.
  intros Hfix.
  destruct (clean_text_shape t) as (lines & Hn & E). rewrite Hfix in E.
  destruct (strip_page_lines potential_headers potential_footers t)
    as (rh & kept & rf & Es & Lh & Lf & ->).
  subst t. destruct lines as [|l0 rest0] eqn:El.
  - simpl in Es. exists []. split; [split; [exact I|left; reflexivity]|].
    assert (Ek : join [nl] kept = []).
    { destruct rh as [|x rh]; simpl in Es.
      - destruct kept as [|k kept]; [reflexivity|].
        injection Es as <- Es. destruct kept; [reflexivity|discriminate].
      - injection Es as _ Es. destruct rh; [|discriminate].
        destruct kept; [reflexivity|discriminate]. }
    rewrite Ek. reflexivity.
  - rewrite <- El in *. assert (Hne : lines <> []) by (subst; discriminate).
    clear El. rewrite normal_lines_split in Es by assumption.
    assert (Hk : tidy_from true kept).
    { destruct Hn as [Ht _]. unfold tidy in Ht. rewrite Es in Ht.
      apply tidy_from_suffix in Ht. apply tidy_from_app in Ht. exact Ht. }
    exists (trim_blanks kept). split; [apply trim_blanks_normal, Hk|].
    apply strip_join_loose, Hk.
Qed.

Lemma strip_page_normal (potential_headers potential_footers : list str)
    (t : str) :
  _clean_text t = t ->
  _clean_text (strip_page potential_headers potential_footers t)
  = strip_page potential_headers potential_footers t.
Proof.
  intros H.
  destruct (strip_page_shape potential_headers potential_footers t H)
    as (lines & Hn & ->).
  apply clean_text_fixed, Hn.
Qed.

(** ** Texts joined by an empty line *)

Lemma tidy_from_app_iff (b : bool) (xs ys : list str) :
  tidy_from b (xs ++ ys) <->
  tidy_from b xs /\ tidy_from (ends_with_text b xs) ys.
Proof.
  revert b. induction xs as [|l rest IH]; intros b.
  - simpl. tauto.
  - rewrite ends_with_text_cons. simpl.
    destruct (truthy l); rewrite IH; tauto.
Qed.

Lemma join_app (sep : str) (xs ys : list str) :
  xs <> [] -> ys <> [] ->
  join sep (xs ++ ys) = join sep xs ++ sep ++ join sep ys.
Proof.
  intros Hx Hy. induction xs as [|x rest IH]; [contradiction|].
  destruct rest as [|x' rest'].
  - simpl app. rewrite join_cons by exact Hy. reflexivity.
  - change ((x :: x' :: rest') ++ ys) with (x :: ((x' :: rest') ++ ys)).
    rewrite join_cons by (simpl; discriminate).
    rewrite IH by discriminate.
    rewrite (join_cons sep x (x' :: rest')) by discriminate.
    rewrite <- !app_assoc. reflexivity.
Qed.

Lemma normal_lines_gap (xs ys : list str) :
  normal_lines xs -> xs <> [] -> normal_lines ys -> ys <> [] ->
  normal_lines (xs ++ [] :: ys) /\
  join nl2 [join [nl] xs; join [nl] ys] = join [nl] (xs ++ [] :: ys).
Proof.
  intros [Hx Hxe] Hxn [Hy Hye] Hyn. split; [split|].
  - unfold tidy. apply tidy_from_app_iff. split; [exact Hx|].
    destruct Hxe as [Hxe|Hxe]; [contradiction|].
    rewrite ends_with_text_eq, Hxe.
    destruct xs; [contradiction|]. simpl.
    split; [apply line_ok_nil|]. split; [reflexivity|exact Hy].
  - right. destruct Hye as [Hye|Hye]; [contradiction|].
    destruct (exists_last Hyn) as (front & y & E). rewrite E in *.
    change (xs ++ [] :: front ++ [y]) with (xs ++ ([] :: front) ++ [y]).
    rewrite app_assoc, last_item_snoc.
    rewrite last_item_snoc in Hye. exact Hye.
  - rewrite (join_app [nl] xs ([] :: ys)) by (assumption || discriminate).
    destruct ys; [contradiction|]. reflexivity.
Qed.

(** The join, by two line feeds, of non-empty normalized texts is a
    normalized text. *)
Lemma join_nl2_normal (texts : list str) :
  Forall (fun t => t <> [] /\
                   exists lines, normal_lines lines /\ t = join [nl] lines)
         texts ->
  exists lines,
    normal_lines lines /\ join nl2 texts = join [nl] lines /\
    (texts <> [] -> lines <> []).
Proof.
  induction 1 as [|t rest [Hne (lt & Hlt & ->)] _ (lr & Hlr & Er & Hr)].
  - exists []. split; [split; [exact I|left; reflexivity]|].
    split; [reflexivity|intros H; contradiction].
  - assert (Hltn : lt <> []) by (intros ->; apply Hne; reflexivity).
    destruct rest as [|t' rest'].
    + exists lt. auto.
    + assert (Hlrn : lr <> []) by (apply Hr; discriminate).
      destruct (normal_lines_gap lt lr Hlt Hltn Hlr Hlrn) as [Hn Hj].
      exists (lt ++ [] :: lr). split; [exact Hn|]. split.
      * rewrite join_cons by discriminate. rewrite Er, <- Hj. reflexivity.
      * intros _ E. destruct lt; discriminate.
Qed.

End RemovalFacts.
Import RemovalFacts.

(* ================================================================== *)
(** * Further facts about parse_pdf                                    *)
(* ================================================================== *)

Module AssemblyFacts.

Lemma page_data_eq (p q : page_data) :
  text p = text q -> metadata p = metadata q -> word_count p = word_count q ->
  p = q.
Proof. destruct p, q; simpl; intros -> -> ->; reflexivity. Qed.

Lemma extract_normalized (self : config) (page : pdf_page) (i : nat) :
  _clean_text (text (extract_text_from_page self page i))
  = text (extract_text_from_page self page i).
Proof.
  unfold extract_text_from_page.
  destruct (if preserve_layout self then _ else _); simpl;
    [apply clean_text_twice|reflexivity].
Qed.

Lemma extract_words (self : config) (page : pdf_page) (i : nat) :
  word_count (extract_text_from_page self page i)
  = length (split_ws (text (extract_text_from_page self page i))).
Proof.
  unfold extract_text_from_page.
  destruct (if preserve_layout self then _ else _); simpl; [|reflexivity].
  destruct (_clean_text a); reflexivity.
Qed.

Lemma extract_error (self : config) (page : pdf_page) (i : nat) :
  md_error (metadata (extract_text_from_page self page i)) <> None ->
  text (extract_text_from_page self page i) = [].
Proof.
  unfold extract_text_from_page.
  destruct (if preserve_layout self then _ else _); simpl;
    [intros H; contradiction|reflexivity].
Qed.

Lemma collect_pages_length (self : config) (pages : list pdf_page) (i : nat) :
  length (collect_pages self i pages) <= length pages.
Proof.
  revert i. induction pages as [|page rest IH]; intros i; simpl; [lia|].
  specialize (IH (S i)). destruct (_ <=? _)%Z; simpl; lia.
Qed.

Lemma collect_pages_keep_all (self : config) (pages : list pdf_page)
    (i : nat) :
  (min_text_length self <= 0)%Z ->
  length (collect_pages self i pages) = length pages.
Proof.
  intros Hmin. revert i. induction pages as [|page rest IH]; intros i;
    simpl; [reflexivity|].
  replace (_ <=? _)%Z with true by (symmetry; apply Z.leb_le; lia).
  simpl. rewrite IH. reflexivity.
Qed.

Lemma remove_headers_footers_keeps_words (self : config) (h : heap)
    (pages_data : list ref) (r : ref) :
  word_count (fst (_remove_headers_footers self h pages_data) r)
  = word_count (h r).
Proof.
  unfold _remove_headers_footers. destruct (_ || _); [reflexivity|].
  apply loop_keeps_other_keys.
Qed.

(** What [_remove_headers_footers] leaves normalized. *)
Lemma removal_keeps_normalized (self : config) (h : heap)
    (pages_data : list ref) :
  NoDup pages_data ->
  Forall (fun r => _clean_text (text (h r)) = text (h r)) pages_data ->
  Forall (fun r =>
    _clean_text (text (fst (_remove_headers_footers self h pages_data) r))
    = text (fst (_remove_headers_footers self h pages_data) r)) pages_data.
Proof.
  intros Hnd Hn. unfold _remove_headers_footers.
  destruct (_ || _); [exact Hn|]. simpl fst.
  apply Forall_forall. intros r Hr. rewrite Forall_forall in Hn.
  rewrite loop_text by assumption. apply strip_page_normal, Hn, Hr.
Qed.

(** The pages of the result, one by one, against the pages kept by the
    loop over the document. *)
Lemma parse_pdf_pages (self : config) (pdf_reader : pdf_reader)
    (doc : parsed_pdf) :
  parse_pdf self (Return pdf_reader) = Return doc ->
  let kept := collect_pages self 0 (reader_pages pdf_reader) in
  let h0 := fst (alloc kept) in
  let refs := snd (alloc kept) in
  pages doc = map (fst (_remove_headers_footers self h0 refs)) refs /\
  map h0 refs = kept /\ NoDup refs /\
  total_pages doc = length (reader_pages pdf_reader) /\
  total_words doc = list_sum (map word_count (pages doc)).
Proof.
  intros H. cbv zeta.
  destruct (parse_pdf_result self pdf_reader doc H) as (Hp & _ & _).
  split; [exact Hp|]. split; [apply alloc_read|]. split; [apply alloc_NoDup|].
  unfold parse_pdf in H.
  destruct (alloc (collect_pages self 0 (reader_pages pdf_reader)))
    as [h0 refs].
  destruct (_remove_headers_footers self h0 refs) as [h1 refs1].
  injection H as <-. simpl. auto.
Qed.

Lemma Forall_map_iff {A B : Type} (f : A -> B) (P : B -> Prop) (l : list A) :
  Forall P (map f l) <-> Forall (fun a => P (f a)) l.
Proof. apply Forall_map. Qed.

End AssemblyFacts.
Import AssemblyFacts.

(** ** _remove_headers_footers *)

(** X7. There is at most one header candidate (and at most one footer
    candidate), and the candidates are the same in whatever order the
    elements of [set(first_lines)] are enumerated. *)
Theorem candidates_unique_in_any_order (lines enum : list str) :
  NoDup enum -> (forall x, In x enum <-> In x lines) ->
  filter (fun line => over_half (count line lines) (length lines)
                      && truthy (strip line)) enum
  = frequent lines (length lines) /\
  length (frequent lines (length lines)) <= 1.
Proof.
  intros Hnd Hsame. split.
  - apply frequent_any_order; assumption.
  - apply frequent_at_most_one.
Qed.

Lemma candidates_unique_in_any_order_witness :
  NoDup [py "Page"; py "ACME Bank"] /\
  (forall x, In x [py "Page"; py "ACME Bank"] <->
             In x [py "ACME Bank"; py "Page"; py "ACME Bank"]) /\
  filter (fun line =>
            over_half (count line [py "ACME Bank"; py "Page"; py "ACME Bank"])
                      (length [py "ACME Bank"; py "Page"; py "ACME Bank"])
            && truthy (strip line)) [py "Page"; py "ACME Bank"]
  = frequent [py "ACME Bank"; py "Page"; py "ACME Bank"]
             (length [py "ACME Bank"; py "Page"; py "ACME Bank"]) /\
  length (frequent [py "ACME Bank"; py "Page"; py "ACME Bank"]
                   (length [py "ACME Bank"; py "Page"; py "ACME Bank"])) <= 1.
Proof.
  assert (H1 : NoDup [py "Page"; py "ACME Bank"]).
  { constructor; [intros [H|[]]; discriminate H|].
    constructor; [intros []|constructor]. }
  assert (H2 : forall x, In x [py "Page"; py "ACME Bank"] <->
                         In x [py "ACME Bank"; py "Page"; py "ACME Bank"])
    by (intros x; simpl; tauto).
  split; [exact H1|]. split; [exact H2|].
  apply (candidates_unique_in_any_order
           [py "ACME Bank"; py "Page"; py "ACME Bank"]
           [py "Page"; py "ACME Bank"] H1 H2).
Defined.

(** X8. When the removal applies and a non-blank line is the first line of
    more than half of the pages, every page whose first line is that line
    (up to surrounding white space) loses it: the new text is made of the
    lines after the first, less at most the last one. *)
Theorem frequent_header_removed (self : config) (h : heap)
    (pages_data : list ref) (r : ref) (header : str) :
  remove_headers_footers self = true -> 3 <= length pages_data ->
  NoDup pages_data -> In r pages_data ->
  over_half (count header (map (fun page => first_line (text (h page)))
                               pages_data))
            (length pages_data) = true ->
  truthy (strip header) = true ->
  strip (first_line (text (h r))) = strip header ->
  exists kept removed_foot,
    drop_first (split nl (text (h r))) = kept ++ removed_foot /\
    length removed_foot <= 1 /\
    text (fst (_remove_headers_footers self h pages_data) r)
    = strip (join [nl] kept).
Proof.
  intros Hon Hlen Hnd Hr Hfreq Hnb Hmatch.
  unfold _remove_headers_footers. rewrite guard_passed by assumption.
  simpl fst. rewrite loop_text by assumption.
  set (first_lines := map (fun page => first_line (text (h page))) pages_data)
    in *.
  set (PH := frequent first_lines (length pages_data)).
  set (PF := frequent _ (length pages_data)).
  assert (Hin : In header PH).
  { apply frequent_In. split; [eapply over_half_In, Hfreq|]. auto. }
  unfold strip_page. rewrite first_line_hd in Hmatch.
  pose proof (split_not_nil nl (text (h r))) as Hne.
  replace (truthy (split nl (text (h r))) && truthy PH) with true
    by (destruct (split nl (text (h r))); [contradiction|];
        destruct PH; [destruct Hin|reflexivity]).
  rewrite (remove_header_hit _ PH header Hin Hmatch).
  set (lines1 := drop_first (split nl (text (h r)))).
  destruct (truthy lines1 && truthy PF).
  - destruct (remove_footer_cases lines1 PF) as [E|E]; rewrite E.
    + exists lines1, []. rewrite app_nil_r. simpl. auto.
    + destruct lines1 as [|l ls] eqn:El.
      * exists [], []. simpl. auto.
      * exists (drop_last (l :: ls)), [last (l :: ls) []].
        split; [apply app_removelast_last; discriminate|]. simpl. auto.
  - exists lines1, []. rewrite app_nil_r. simpl. auto.
Qed.

Lemma frequent_header_removed_witness :
  remove_headers_footers default_config = true /\
  3 <= length letter_refs /\ NoDup letter_refs /\ In 0 letter_refs /\
  over_half (count (py "STATEMENT")
               (map (fun page => first_line (text (letter_heap page)))
                    letter_refs))
            (length letter_refs) = true /\
  truthy (strip (py "STATEMENT")) = true /\
  strip (first_line (text (letter_heap 0))) = strip (py "STATEMENT") /\
  exists kept removed_foot,
    drop_first (split nl (text (letter_heap 0))) = kept ++ removed_foot /\
    length removed_foot <= 1 /\
    text (fst (_remove_headers_footers default_config letter_heap
                 letter_refs) 0)
    = strip (join [nl] kept).
Proof.
  assert (H1 : remove_headers_footers default_config = true) by reflexivity.
  assert (H2 : 3 <= length letter_refs) by (simpl; lia).
  assert (H3 : NoDup letter_refs) by apply (seq_NoDup 3 0).
  assert (H4 : In 0 letter_refs) by (left; reflexivity).
  assert (H5 : over_half (count (py "STATEMENT")
                 (map (fun page => first_line (text (letter_heap page)))
                      letter_refs))
                 (length letter_refs) = true) by reflexivity.
  assert (H6 : truthy (strip (py "STATEMENT")) = true) by reflexivity.
  assert (H7 : strip (first_line (text (letter_heap 0)))
               = strip (py "STATEMENT")) by reflexivity.
  repeat (split; [assumption|]).
  apply (frequent_header_removed default_config letter_heap letter_refs 0
           (py "STATEMENT") H1 H2 H3 H4 H5 H6 H7).
Defined.

(** X9. When the removal applies to distinct, normalized pages, a page whose
    first line and whose last line are each on at most half of the pages
    is left exactly as it was. *)
Theorem page_without_boilerplate_untouched (self : config) (h : heap)
    (pages_data : list ref) (r : ref) :
  remove_headers_footers self = true -> 3 <= length pages_data ->
  NoDup pages_data ->
  Forall (fun page => _clean_text (text (h page)) = text (h page))
         pages_data ->
  In r pages_data ->
  over_half (count (first_line (text (h r)))
               (map (fun page => first_line (text (h page))) pages_data))
            (length pages_data) = false ->
  over_half (count (last_line (text (h r)))
               (map (fun page => last_line (text (h page))) pages_data))
            (length pages_data) = false ->
  fst (_remove_headers_footers self h pages_data) r = h r.
Proof.
  intros Hon Hlen Hnd Hnorm Hr Hfirst Hlast.
  rewrite Forall_forall in Hnorm.
  unfold _remove_headers_footers. rewrite guard_passed by assumption.
  simpl fst. apply page_data_eq; try apply loop_keeps_other_keys.
  rewrite loop_text by assumption.
  set (first_lines := map (fun page => first_line (text (h page))) pages_data)
    in *.
  set (last_lines := map (fun page => last_line (text (h page))) pages_data)
    in *.
  set (PH := frequent first_lines (length pages_data)).
  set (PF := frequent last_lines (length pages_data)).
  set (t := text (h r)) in *. pose proof (Hnorm r Hr) as Ht. fold t in Ht.
  assert (Hh : remove_header (split nl t) PH = split nl t).
  { apply remove_header_miss, Forall_forall. intros x Hx E.
    apply frequent_In in Hx as (Hx & Hfx & _).
    apply in_map_iff in Hx as (p & <- & Hp).
    rewrite <- first_line_hd in E.
    rewrite (normalized_first_line _ Ht) in E.
    rewrite (normalized_first_line _ (Hnorm p Hp)) in E.
    rewrite <- E in Hfx. congruence. }
  assert (Hf : remove_footer (split nl t) PF = split nl t).
  { apply remove_footer_miss, Forall_forall. intros x Hx E.
    apply frequent_In in Hx as (Hx & Hfx & _).
    apply in_map_iff in Hx as (p & <- & Hp).
    rewrite <- last_line_last in E.
    rewrite (normalized_last_line _ Ht) in E.
    rewrite (normalized_last_line _ (Hnorm p Hp)) in E.
    rewrite <- E in Hfx. congruence. }
  unfold strip_page.
  replace (if truthy (split nl t) && truthy PH
           then remove_header (split nl t) PH else split nl t)
    with (split nl t) by (rewrite Hh; destruct (_ && _); reflexivity).
  replace (if truthy (split nl t) && truthy PF
           then remove_footer (split nl t) PF else split nl t)
    with (split nl t) by (rewrite Hf; destruct (_ && _); reflexivity).
  rewrite join_split. rewrite <- Ht. apply clean_text_strip_fixed.
Qed.

Lemma page_without_boilerplate_untouched_witness :
  remove_headers_footers default_config = true /\
  3 <= length letter_refs /\ NoDup letter_refs /\
  Forall (fun page => _clean_text (text (memo_heap page))
                      = text (memo_heap page)) letter_refs /\
  In 1 letter_refs /\
  over_half (count (first_line (text (memo_heap 1)))
               (map (fun page => first_line (text (memo_heap page)))
                    letter_refs))
            (length letter_refs) = false /\
  over_half (count (last_line (text (memo_heap 1)))
               (map (fun page => last_line (text (memo_heap page)))
                    letter_refs))
            (length letter_refs) = false /\
  fst (_remove_headers_footers default_config memo_heap letter_refs) 1
  = memo_heap 1.
Proof.
  assert (H1 : remove_headers_footers default_config = true) by reflexivity.
  assert (H2 : 3 <= length letter_refs) by (simpl; lia).
  assert (H3 : NoDup letter_refs) by apply (seq_NoDup 3 0).
  assert (H4 : Forall (fun page => _clean_text (text (memo_heap page))
                                   = text (memo_heap page)) letter_refs)
    by (repeat constructor).
  assert (H5 : In 1 letter_refs) by (right; left; reflexivity).
  assert (H6 : over_half (count (first_line (text (memo_heap 1)))
                 (map (fun page => first_line (text (memo_heap page)))
                      letter_refs))
                 (length letter_refs) = false) by reflexivity.
  assert (H7 : over_half (count (last_line (text (memo_heap 1)))
                 (map (fun page => last_line (text (memo_heap page)))
                      letter_refs))
                 (length letter_refs) = false) by reflexivity.
  repeat (split; [assumption|]).
  apply (page_without_boilerplate_untouched default_config memo_heap
           letter_refs 1 H1 H2 H3 H4 H5 H6 H7).
Defined.

(** ** parse_pdf *)

(** X10. Every page text of a parsed document is normalized, also after
    the removal of headers and footers, and so is the full text:
    [_clean_text] leaves each of them unchanged. *)
Theorem parsed_texts_normalized (self : config) (pdf_reader : pdf_reader) :
  exists doc,
    parse_pdf self (Return pdf_reader) = Return doc /\
    Forall (fun p => _clean_text (text p) = text p) (pages doc) /\
    _clean_text (full_text doc) = full_text doc.
Proof.
  destruct (parse_pdf_returns self pdf_reader) as [doc E].
  exists doc. split; [exact E|].
  destruct (parse_pdf_pages self pdf_reader doc E) as (Hp & Hk & Hnd & _).
  destruct (parse_pdf_result self pdf_reader doc E) as (_ & _ & Hf).
  set (kept := collect_pages self 0 (reader_pages pdf_reader)) in *.
  assert (Hpages : Forall (fun p => _clean_text (text p) = text p) (pages doc)).
  { rewrite Hp. apply Forall_map_iff.
    apply removal_keeps_normalized; [exact Hnd|].
    apply (Forall_map_iff (fst (alloc kept))
             (fun p => _clean_text (text p) = text p)).
    rewrite Hk. apply Forall_forall. intros pd Hpd.
    apply collect_pages_In in Hpd as (j & page & _ & -> & _).
    apply extract_normalized. }
  split; [exact Hpages|].
  destruct (join_nl2_normal
              (map text (filter (fun page => truthy (text page)) (pages doc))))
    as (lines & Hn & Ej & _).
  - apply Forall_map_iff, Forall_forall. intros p Hin.
    apply filter_In in Hin as [Hin Ht].
    rewrite Forall_forall in Hpages. specialize (Hpages p Hin).
    split; [apply truthy_true, Ht|].
    destruct (clean_text_shape (text p)) as (lines & Hn & El).
    exists lines. split; [exact Hn|]. congruence.
  - rewrite Hf, Ej. apply clean_text_fixed, Hn.
Qed.

(** X11. The count of processed pages of a parsed document is the length of
    its list of pages and never exceeds the count of all pages, which is
    the number of pages of the file. *)
Theorem processed_pages_bounded (self : config) (pdf_reader : pdf_reader) :
  exists doc,
    parse_pdf self (Return pdf_reader) = Return doc /\
    total_pages doc = length (reader_pages pdf_reader) /\
    processed_pages doc = length (pages doc) /\
    processed_pages doc <= total_pages doc.
Proof.
  destruct (parse_pdf_returns self pdf_reader) as [doc E].
  exists doc. split; [exact E|].
  destruct (parse_pdf_pages self pdf_reader doc E) as (Hp & _ & _ & Ht & _).
  destruct (parse_pdf_result self pdf_reader doc E) as (_ & Hn & _).
  rewrite Ht, Hn, Hp, length_map, alloc_length.
  split; [reflexivity|]. split; [reflexivity|]. apply collect_pages_length.
Qed.

(** X12. With a minimum text length of zero or less no page is dropped:
    all pages of the file are in the result, those that could not be
    extracted too. *)
Theorem nothing_dropped_without_minimum (self : config)
    (pdf_reader : pdf_reader) :
  (min_text_length self <= 0)%Z ->
  exists doc,
    parse_pdf self (Return pdf_reader) = Return doc /\
    processed_pages doc = total_pages doc /\
    length (pages doc) = length (reader_pages pdf_reader).
Proof.
  intros Hmin. destruct (parse_pdf_returns self pdf_reader) as [doc E].
  exists doc. split; [exact E|].
  destruct (parse_pdf_pages self pdf_reader doc E) as (Hp & _ & _ & Ht & _).
  destruct (parse_pdf_result self pdf_reader doc E) as (_ & Hn & _).
  rewrite Ht, Hn, Hp, length_map, alloc_length.
  rewrite collect_pages_keep_all by exact Hmin. auto.
Qed.

Lemma nothing_dropped_without_minimum_witness :
  (min_text_length keep_all_config <= 0)%Z /\
  exists doc,
    parse_pdf keep_all_config (Return damaged_pages) = Return doc /\
    processed_pages doc = total_pages doc /\
    length (pages doc) = length (reader_pages damaged_pages).
Proof.
  assert (H : (min_text_length keep_all_config <= 0)%Z) by (simpl; lia).
  split; [exact H|].
  apply (nothing_dropped_without_minimum keep_all_config damaged_pages H).
Defined.

(** X13. With a positive minimum text length a page whose extraction
    failed is never in the result: no page of the result carries the key
    ["error"]. *)
Theorem failed_pages_dropped (self : config) (pdf_reader : pdf_reader) :
  (0 < min_text_length self)%Z ->
  exists doc,
    parse_pdf self (Return pdf_reader) = Return doc /\
    Forall (fun p => md_error (metadata p) = None) (pages doc).
Proof.
  intros Hmin. destruct (parse_pdf_returns self pdf_reader) as [doc E].
  exists doc. split; [exact E|].
  destruct (parse_pdf_pages self pdf_reader doc E) as (Hp & Hk & _).
  set (kept := collect_pages self 0 (reader_pages pdf_reader)) in *.
  rewrite Hp. apply Forall_map_iff, Forall_forall. intros r Hr.
  rewrite remove_headers_footers_keeps_metadata.
  assert (Hin : In (fst (alloc kept) r) kept)
    by (rewrite <- Hk at 2; apply in_map, Hr).
  apply collect_pages_In in Hin as (j & page & _ & Hx & Hl).
  destruct (md_error (metadata (fst (alloc kept) r))) eqn:Ee; [|reflexivity].
  exfalso. rewrite Hx in Ee, Hl.
  rewrite extract_error in Hl by congruence. simpl in Hl. lia.
Qed.

Lemma failed_pages_dropped_witness :
  (0 < min_text_length default_config)%Z /\
  exists doc,
    parse_pdf default_config (Return damaged_pages) = Return doc /\
    Forall (fun p => md_error (metadata p) = None) (pages doc).
Proof.
  assert (H : (0 < min_text_length default_config)%Z) by (simpl; lia).
  split; [exact H|].
  apply (failed_pages_dropped default_config damaged_pages H).
Defined.

(** X14. The total word count of a parsed document counts the words of the
    page texts as they were extracted and kept, before the removal of
    headers and footers: the removal does not change it. *)
Theorem total_words_counted_before_removal (self : config)
    (pdf_reader : pdf_reader) :
  exists doc,
    parse_pdf self (Return pdf_reader) = Return doc /\
    total_words doc
    = list_sum (map (fun page_data => length (split_ws (text page_data)))
                    (collect_pages self 0 (reader_pages pdf_reader))).
Proof.
  destruct (parse_pdf_returns self pdf_reader) as [doc E].
  exists doc. split; [exact E|].
  destruct (parse_pdf_pages self pdf_reader doc E)
    as (Hp & Hk & _ & _ & Hw).
  set (kept := collect_pages self 0 (reader_pages pdf_reader)) in *.
  rewrite Hw, Hp, map_map. rewrite <- Hk at 2. rewrite map_map.
  f_equal. apply map_ext_in. intros r Hr.
  rewrite remove_headers_footers_keeps_words.
  assert (Hin' : In (fst (alloc kept) r) kept)
    by (rewrite <- Hk at 2; apply in_map, Hr).
  apply collect_pages_In in Hin' as (j & page & _ & -> & _).
  apply extract_words.
Qed.

(* ================================================================== *)
(** * Further facts about the statement parser                         *)
(* ================================================================== *)

Module ClassifierFacts.

Lemma any_keyword_false (keywords : list str) (text_lower : str) :
  any_keyword keywords text_lower = false <->
  Forall (fun keyword => contains keyword text_lower = false) keywords.
Proof.
  induction keywords as [|k rest IH]; simpl.
  - split; [constructor|reflexivity].
  - destruct (contains k text_lower) eqn:E.
    + split; [discriminate|]. intros H. inversion H; congruence.
    + rewrite IH. split; [intros H; constructor; assumption|].
      intros H. inversion H; assumption.
Qed.

Lemma any_keyword_true (keywords : list str) (text_lower : str) :
  any_keyword keywords text_lower = true <->
  Exists (fun keyword => contains keyword text_lower = true) keywords.
Proof.
  induction keywords as [|k rest IH]; simpl.
  - split; [discriminate|]. intros H. inversion H.
  - destruct (contains k text_lower) eqn:E.
    + split; [intros _; left; exact E|reflexivity].
    + rewrite IH. split; [intros H; right; exact H|].
      intros H. inversion H; [congruence|assumption].
Qed.

Lemma detect_in_label (table : list (str * list str)) (text_lower : str) :
  In (detect_in table text_lower) (map fst table ++ [py "Unknown"]).
Proof.
  induction table as [|[issuer keywords] rest IH]; simpl; [auto|].
  destruct (any_keyword keywords text_lower); auto.
Qed.

Lemma detect_in_unknown (table : list (str * list str)) (text_lower : str) :
  ~ In (py "Unknown") (map fst table) ->
  detect_in table text_lower = py "Unknown" <->
  Forall (fun keyword => contains keyword text_lower = false)
         (flat_map snd table).
Proof.
  induction table as [|[issuer keywords] rest IH]; intros Hno.
  - simpl. split; [constructor|reflexivity].
  - simpl in *. rewrite Forall_app, <- any_keyword_false.
    destruct (any_keyword keywords text_lower).
    + split; [intros ->; exfalso; apply Hno; auto|intros [H _]; discriminate].
    + rewrite IH by tauto. tauto.
Qed.

(** The first entry of the table with a keyword in the text wins. *)
Lemma detect_in_first (before after : list (str * list str))
    (issuer : str) (keywords : list str) (text_lower : str) :
  Forall (fun keyword => contains keyword text_lower = false)
         (flat_map snd before) ->
  Exists (fun keyword => contains keyword text_lower = true) keywords ->
  detect_in (before ++ (issuer, keywords) :: after) text_lower = issuer.
Proof.
  intros Hb Hk. induction before as [|[i ks] rest IH]; simpl.
  - apply any_keyword_true in Hk. rewrite Hk. reflexivity.
  - simpl in Hb. apply Forall_app in Hb as [H1 H2].
    apply any_keyword_false in H1. rewrite H1. apply IH, H2.
Qed.

Section WithRuntime.

Context {regex : Regex}.

Lemma first_match_none (patterns : list str) (flags : re_flags) (text : str)
    (result : list str -> str) :
  first_match patterns flags text result = None <->
  Forall (fun pattern => re_search pattern flags text = None) patterns.
Proof.
  induction patterns as [|p rest IH]; simpl.
  - split; [constructor|reflexivity].
  - destruct (re_search p flags text) eqn:E.
    + split; [discriminate|]. intros H. inversion H; congruence.
    + rewrite IH. split; [intros H; constructor; assumption|].
      intros H. inversion H; assumption.
Qed.

Lemma first_match_some (patterns : list str) (flags : re_flags) (text : str)
    (result : list str -> str) (s : str) :
  first_match patterns flags text result = Some s <->
  exists before pattern after m,
    patterns = before ++ pattern :: after /\
    Forall (fun p => re_search p flags text = None) before /\
    re_search pattern flags text = Some m /\ s = result m.
Proof.
  revert s. induction patterns as [|p rest IH]; intros s; simpl.
  - split; [discriminate|]. intros (b & q & a & m & E & _).
    destruct b; discriminate.
  - destruct (re_search p flags text) as [m|] eqn:E.
    + split.
      * intros H. injection H as <-. exists [], p, rest, m. auto.
      * intros (b & q & a & m' & Ep & Hb & Hq & ->).
        destruct b as [|x b]; simpl in Ep; injection Ep as -> Er.
        -- congruence.
        -- inversion Hb; congruence.
    + rewrite IH. split.
      * intros (b & q & a & m & -> & Hb & Hq & ->).
        exists (p :: b), q, a, m. auto.
      * intros (b & q & a & m & Ep & Hb & Hq & ->).
        destruct b as [|x b]; simpl in Ep; injection Ep as -> Er.
        -- congruence.
        -- inversion Hb; subst. exists b, q, a, m. auto.
Qed.

End WithRuntime.

End ClassifierFacts.
Import ClassifierFacts.

(** ** _detect_issuer *)

(** X15. [_detect_issuer] returns one of the five labels of its table or
    "Unknown". *)
Theorem detect_issuer_label {case_tables : CaseTables} (text : str) :
  In (_detect_issuer text)
     [py "American Express"; py "Chase"; py "Citibank"; py "Capital One";
      py "Bank of America"; py "Unknown"].
Proof. apply (detect_in_label issuers). Qed.

(** X16. [_detect_issuer] returns "Unknown" exactly when none of the nine
    keywords of the table occurs in the text in lower case. *)
Theorem detect_issuer_unknown_iff {case_tables : CaseTables} (text : str) :
  _detect_issuer text = py "Unknown" <->
  Forall (fun keyword => contains keyword (lower text) = false)
    [py "american express"; py "amex"; py "chase"; py "jpmorgan chase";
     py "citibank"; py "citi card"; py "capital one"; py "bank of america";
     py "bankamericard"].
Proof.
  apply (detect_in_unknown issuers).
  simpl. intros H. repeat (destruct H as [H|H]; [discriminate H|]). exact H.
Qed.

(** X17. The order of the table decides between issuers: an entry is
    returned as soon as one of its keywords occurs in the text in lower
    case and no keyword of an entry before it does, whatever the keywords
    of later entries. *)
Theorem detect_issuer_first_entry_wins {case_tables : CaseTables}
    (text : str) (before after : list (str * list str)) (issuer : str)
    (keywords : list str) :
  issuers = before ++ (issuer, keywords) :: after ->
  Forall (fun keyword => contains keyword (lower text) = false)
         (flat_map snd before) ->
  Exists (fun keyword => contains keyword (lower text) = true) keywords ->
  _detect_issuer text = issuer.
Proof.
  intros E Hb Hk. unfold _detect_issuer. rewrite E.
  apply detect_in_first; assumption.
Qed.

Lemma detect_issuer_first_entry_wins_witness :
  issuers
  = [(py "American Express", [py "american express"; py "amex"])]
    ++ (py "Chase", [py "chase"; py "jpmorgan chase"])
    :: [(py "Citibank", [py "citibank"; py "citi card"]);
        (py "Capital One", [py "capital one"]);
        (py "Bank of America", [py "bank of america"; py "bankamericard"])] /\
  Forall (fun keyword =>
            contains keyword (lower (py "Transfer from Citibank to Chase"))
            = false)
         (flat_map snd
            [(py "American Express", [py "american express"; py "amex"])]) /\
  Exists (fun keyword =>
            contains keyword (lower (py "Transfer from Citibank to Chase"))
            = true)
         [py "chase"; py "jpmorgan chase"] /\
  _detect_issuer (py "Transfer from Citibank to Chase") = py "Chase".
Proof.
  assert (H1 : issuers
    = [(py "American Express", [py "american express"; py "amex"])]
      ++ (py "Chase", [py "chase"; py "jpmorgan chase"])
      :: [(py "Citibank", [py "citibank"; py "citi card"]);
          (py "Capital One", [py "capital one"]);
          (py "Bank of America", [py "bank of america"; py "bankamericard"])])
    by reflexivity.
  assert (H2 : Forall (fun keyword =>
            contains keyword (lower (py "Transfer from Citibank to Chase"))
            = false)
         (flat_map snd
            [(py "American Express", [py "american express"; py "amex"])]))
    by (repeat constructor).
  assert (H3 : Exists (fun keyword =>
            contains keyword (lower (py "Transfer from Citibank to Chase"))
            = true)
         [py "chase"; py "jpmorgan chase"])
    by (left; reflexivity).
  split; [exact H1|]. split; [exact H2|]. split; [exact H3|].
  apply (detect_issuer_first_entry_wins (py "Transfer from Citibank to Chase")
           _ _ _ _ H1 H2 H3).
Defined.

(** X18. On ASCII text the classification does not depend on the case of
    the letters: two ASCII texts that agree once their letters are put in
    lower case get the same issuer. *)
Theorem detect_issuer_ignores_ascii_case {case_tables : CaseTables}
    (a b : str) :
  Forall (fun c => (c < 128)%N) a -> Forall (fun c => (c < 128)%N) b ->
  map ascii_lower a = map ascii_lower b ->
  _detect_issuer a = _detect_issuer b.
Proof.
  intros Ha Hb E. rewrite !detect_issuer_ascii by assumption.
  rewrite E. reflexivity.
Qed.

Lemma detect_issuer_ignores_ascii_case_witness :
  Forall (fun c => (c < 128)%N) (py "CAPITAL ONE Visa") /\
  Forall (fun c => (c < 128)%N) (py "Capital One VISA") /\
  map ascii_lower (py "CAPITAL ONE Visa")
  = map ascii_lower (py "Capital One VISA") /\
  _detect_issuer (py "CAPITAL ONE Visa")
  = _detect_issuer (py "Capital One VISA").
Proof.
  assert (H1 : Forall (fun c => (c < 128)%N) (py "CAPITAL ONE Visa"))
    by (repeat constructor).
  assert (H2 : Forall (fun c => (c < 128)%N) (py "Capital One VISA"))
    by (repeat constructor).
  assert (H3 : map ascii_lower (py "CAPITAL ONE Visa")
               = map ascii_lower (py "Capital One VISA")) by reflexivity.
  split; [exact H1|]. split; [exact H2|]. split; [exact H3|].
  apply (detect_issuer_ignores_ascii_case _ _ H1 H2 H3).
Defined.

(** ** The field extractors *)

(** X19. A field extractor returns [None] exactly when none of its
    patterns matches the text: a field that is not found is absent, not an
    error. *)
Theorem field_absent_iff_no_pattern_matches {regex : Regex} (text : str) :
  (_extract_card_last_4 text = None <->
   Forall (fun p => re_search p I_M text = None) card_patterns) /\
  (_extract_statement_period text = None <->
   Forall (fun p => re_search p I_ text = None) period_patterns) /\
  (_extract_total_amount_due text = None <->
   Forall (fun p => re_search p I_ text = None) amount_patterns) /\
  (_extract_payment_due_date text = None <->
   Forall (fun p => re_search p I_ text = None) due_date_patterns).
Proof.
  repeat split; try (apply first_match_none);
    intros H; apply first_match_none; exact H.
Qed.

(** X20. A field extractor that finds its field returns what the first
    matching pattern of its list captured: group 1 for the card digits and
    the due date, "group 1 to group 2" for the period, and group 1 behind a
    dollar sign for the amount; later patterns are not consulted. *)
Theorem field_from_first_matching_pattern {regex : Regex} (text s : str) :
  (_extract_card_last_4 text = Some s <->
   exists m, first_hit card_patterns I_M text m /\ s = group m 1) /\
  (_extract_statement_period text = Some s <->
   exists m, first_hit period_patterns I_ text m /\
             s = group m 1 ++ py " to " ++ group m 2) /\
  (_extract_total_amount_due text = Some s <->
   exists m, first_hit amount_patterns I_ text m /\ s = py "$" ++ group m 1) /\
  (_extract_payment_due_date text = Some s <->
   exists m, first_hit due_date_patterns I_ text m /\ s = group m 1).
Proof.
  assert (G : forall patterns flags result,
            first_match patterns flags text result = Some s <->
            exists m, first_hit patterns flags text m /\ s = result m).
  { intros patterns flags result. rewrite first_match_some. unfold first_hit.
    split.
    - intros (b & p & a & m & E & Hb & Hp & Hs). exists m. eauto 10.
    - intros (m & (b & p & a & E & Hb & Hp) & Hs). exists b, p, a, m. auto. }
  repeat split; try (apply G); intros H; apply G; exact H.
Qed.

(** ** parse_statement *)

(** X21. [parse_statement] has two outcomes only: for a document that could
    be read it returns the dictionary of extracted fields, whose issuer is
    that of the full text and which holds at most five transactions; for
    one that could not it raises [AttributeError].  The dictionary with the
    key ["error"] is never returned. *)
Theorem parse_statement_outcomes {case_tables : CaseTables} {regex : Regex}
    (datetime_now : str) (file : outcome pdf_reader) :
  match parse_statement datetime_now file with
  | Return (Extracted d) =>
      exists doc,
        parse_pdf pdf_parser file = Return doc /\
        issuer d = _detect_issuer (full_text doc) /\
        length (transactions d) <= 5 /\
        extraction_timestamp d = datetime_now
  | Return (Failed _) => False
  | Raise e =>
      (exists e0, file = Raise e0) /\ exc_class e = "AttributeError"%string
  end.
Proof.
  unfold parse_statement. destruct file as [pdf_reader|e0].
  - destruct (parse_pdf_returns pdf_parser pdf_reader) as [doc ->].
    exists doc. simpl. repeat split.
    unfold _extract_transactions.
    set (found := map transaction_of _).
    assert (Hl : length found <= 5)
      by (unfold found; rewrite length_map; apply firstn_le_length).
    destruct found; simpl in *; lia.
  - simpl. split; [eauto|reflexivity].
Qed.

(** X22. With the parser that [CreditCardStatementParser] builds (no
    removal of headers and footers, minimum length 5) every page of the
    parsed document has at least five characters and its text as
    extracted, and the full text joins the texts of all of them. *)
Theorem statement_pages_kept_as_extracted (pdf_reader : pdf_reader) :
  exists doc,
    parse_pdf pdf_parser (Return pdf_reader) = Return doc /\
    pages doc = collect_pages pdf_parser 0 (reader_pages pdf_reader) /\
    Forall (fun p => 5 <= length (text p)) (pages doc) /\
    full_text doc = join [nl; nl] (map text (pages doc)).
Proof.
  destruct (parse_pdf_returns pdf_parser pdf_reader) as [doc E].
  exists doc. split; [exact E|].
  destruct (parse_pdf_pages pdf_parser pdf_reader doc E) as (Hp & Hk & _).
  destruct (parse_pdf_result pdf_parser pdf_reader doc E) as (_ & _ & Hf).
  set (kept := collect_pages pdf_parser 0 (reader_pages pdf_reader)) in *.
  assert (Hpages : pages doc = kept).
  { rewrite Hp. unfold _remove_headers_footers.
    rewrite guard_taken by (right; reflexivity). exact Hk. }
  assert (Hlen : Forall (fun p => 5 <= length (text p)) (pages doc)).
  { rewrite Hpages. apply Forall_forall. intros pd Hpd.
    apply collect_pages_In in Hpd as (j & page & _ & _ & Hl).
    simpl in Hl. lia. }
  split; [exact Hpages|]. split; [exact Hlen|].
  rewrite Hf. f_equal. f_equal.
  apply forallb_filter_id. apply forallb_forall. intros p Hin.
  rewrite Forall_forall in Hlen. specialize (Hlen p Hin).
  destruct (text p); [simpl in Hlen; lia|reflexivity].
Qed.

(* ================================================================== *)
(** * Facts about the loader and the pipeline                          *)
(* ================================================================== *)

Module LoaderFacts.

Import LangChainPDFLoader.

(** ** Dictionaries *)

Lemma dict_get_set (d : dict) (key : str) (v : value) (key' : str) :
  dict_get (dict_set d key v) key'
  = if str_eqb key key' then Some v else dict_get d key'.
Proof.
  induction d as [|[k0 v0] rest IH]; simpl; [reflexivity|].
  destruct (str_eqb k0 key) eqn:E0; simpl.
  - apply str_eqb_eq in E0. subst k0. destruct (str_eqb key key'); reflexivity.
  - rewrite IH. destruct (str_eqb k0 key') eqn:E1; [|reflexivity].
    destruct (str_eqb key key') eqn:E2; [|reflexivity].
    apply str_eqb_eq in E1, E2. subst. rewrite str_eqb_refl in E0.
    discriminate.
Qed.

Abbreviation set_item := (fun (d : dict) (kv : str * value) =>
                            dict_set d (fst kv) (snd kv)).

Lemma fold_set_absent (items : dict) (d : dict) (key : str) :
  ~ In key (map fst items) ->
  dict_get (fold_left set_item items d) key = dict_get d key.
Proof.
  revert d. induction items as [|[k v] rest IH]; intros d H; [reflexivity|].
  simpl in *. rewrite IH by tauto. rewrite dict_get_set.
  destruct (str_eqb k key) eqn:E; [|reflexivity].
  apply str_eqb_eq in E. tauto.
Qed.

Lemma fold_set_last (xs ys : dict) (d : dict) (key : str) (v : value) :
  ~ In key (map fst ys) ->
  dict_get (fold_left set_item (xs ++ (key, v) :: ys) d) key = Some v.
Proof.
  intros H. rewrite fold_left_app. simpl.
  rewrite fold_set_absent by exact H.
  rewrite dict_get_set, str_eqb_refl. reflexivity.
Qed.

Lemma dict_get_split (d : dict) (key : str) (v : value) :
  dict_get d key = Some v ->
  exists xs ys, d = xs ++ (key, v) :: ys.
Proof.
  induction d as [|[k0 v0] rest IH]; simpl; [discriminate|].
  destruct (str_eqb k0 key) eqn:E.
  - intros H. injection H as ->. apply str_eqb_eq in E. subst.
    exists [], rest. reflexivity.
  - intros H. destruct (IH H) as (xs & ys & ->).
    exists ((k0, v0) :: xs), ys. reflexivity.
Qed.

Lemma dict_get_none (d : dict) (key : str) :
  dict_get d key = None <-> ~ In key (map fst d).
Proof.
  induction d as [|[k0 v0] rest IH]; simpl; [tauto|].
  destruct (str_eqb k0 key) eqn:E.
  - apply str_eqb_eq in E. split; [discriminate|tauto].
  - apply str_eqb_neq in E. rewrite IH. tauto.
Qed.

(** In a merged dictionary an item of the second dictionary, whose keys are
    distinct, is found as it is there, *)
Lemma dict_merge_second (a b : dict) (key : str) (v : value) :
  NoDup (map fst b) -> dict_get b key = Some v ->
  dict_get (dict_merge a b) key = Some v.
Proof.
  intros Hnd H. destruct (dict_get_split b key v H) as (xs & ys & ->).
  unfold dict_merge. rewrite app_assoc. apply fold_set_last.
  rewrite map_app in Hnd. apply NoDup_remove_2 in Hnd.
  intros Hin. apply Hnd. apply in_or_app. right. exact Hin.
Qed.

(** and a key of neither dictionary is not found. *)
Lemma dict_merge_neither (a b : dict) (key : str) :
  dict_get a key = None -> dict_get b key = None ->
  dict_get (dict_merge a b) key = None.
Proof.
  intros Ha Hb. unfold dict_merge. rewrite fold_set_absent; [reflexivity|].
  rewrite map_app. intros Hin. apply in_app_or in Hin.
  apply dict_get_none in Ha, Hb. tauto.
Qed.

Lemma page_metadata_keys (m : page_metadata) :
  NoDup (map fst (page_metadata_dict m)).
Proof.
  unfold page_metadata_dict, item.
  destruct (md_rotation m), (md_mediabox m), (md_images m), (md_error m);
    simpl; repeat constructor; simpl;
    intros H; repeat (destruct H as [H|H]; [discriminate H|]); exact H.
Qed.

(** ** load *)

Lemma load_page_contents (parsed_data : parsed_pdf) (ps : list page_data) :
  map page_content (flat_map (load_page parsed_data) ps)
  = map text (filter (fun page => truthy (text page)) ps).
Proof.
  induction ps as [|p rest IH]; [reflexivity|]. simpl.
  unfold load_page at 1. destruct (truthy (text p)); simpl; rewrite IH;
    reflexivity.
Qed.

Lemma load_pages_paired (parsed_data : parsed_pdf) (ps : list page_data) :
  Forall2 (fun d p =>
             page_content d = text p /\
             metadata d
             = dict_merge (document_metadata_dict (doc_metadata parsed_data))
                          (page_metadata_dict (CustomPDFParser.metadata p)))
          (flat_map (load_page parsed_data) ps)
          (filter (fun page => truthy (text page)) ps).
Proof.
  induction ps as [|p rest IH]; [constructor|]. simpl.
  unfold load_page at 1. destruct (truthy (text p)); simpl; [|exact IH].
  constructor; [split; reflexivity|exact IH].
Qed.

Lemma load_returns (self : loader) (pdf_reader : pdf_reader) :
  file self = Return pdf_reader ->
  exists doc,
    parse_pdf (parser self) (Return pdf_reader) = Return doc /\
    load self = Return (flat_map (load_page doc) (pages doc)).
Proof.
  intros E. destruct (parse_pdf_returns (parser self) pdf_reader) as [doc Hd].
  exists doc. split; [exact Hd|]. unfold load. rewrite E, Hd. reflexivity.
Qed.

End LoaderFacts.
Import LoaderFacts.

(** ** LangChainPDFLoader.load *)

(** X23. [load] turns the pages of the parsed document that have text into
    documents, in order and with the page text as content: no document is
    empty, there are at most as many documents as processed pages, and
    their contents joined by two line feeds are the full text. *)
Theorem load_documents_are_pages_with_text
    (parser_config : option LangChainPDFLoader.parser_config)
    (pdf_reader : pdf_reader) (chunk_size chunk_overlap : Z) :
  let self := LangChainPDFLoader.new (Return pdf_reader) parser_config
                chunk_size chunk_overlap in
  exists doc docs,
    parse_pdf (LangChainPDFLoader.parser self) (Return pdf_reader)
    = Return doc /\
    LangChainPDFLoader.load self = Return docs /\
    map LangChainPDFLoader.page_content docs
    = map text (filter (fun page => truthy (text page)) (pages doc)) /\
    join [nl; nl] (map LangChainPDFLoader.page_content docs) = full_text doc /\
    Forall (fun d => LangChainPDFLoader.page_content d <> []) docs /\
    length docs <= processed_pages doc.
Proof.
  cbv zeta.
  set (self := LangChainPDFLoader.new (Return pdf_reader) parser_config
                 chunk_size chunk_overlap).
  destruct (load_returns self pdf_reader eq_refl) as (doc & Hd & Hl).
  exists doc, (flat_map (LangChainPDFLoader.load_page doc) (pages doc)).
  destruct (parse_pdf_result _ pdf_reader doc Hd) as (Hp & Hn & Hf).
  split; [exact Hd|]. split; [exact Hl|].
  pose proof (load_page_contents doc (pages doc)) as Hc.
  split; [exact Hc|]. split; [rewrite Hc; symmetry; exact Hf|]. split.
  - apply (Forall_map_iff LangChainPDFLoader.page_content (fun t => t <> [])).
    rewrite Hc. apply Forall_map_iff, Forall_forall. intros p Hin.
    apply filter_In in Hin as [_ Ht]. apply truthy_true, Ht.
  - rewrite <- (length_map LangChainPDFLoader.page_content), Hc, length_map.
    etransitivity; [apply filter_length_le|].
    rewrite Hp, length_map, alloc_length, Hn. apply le_n.
Qed.

(** X24. In the metadata of a loaded document the entries of the page win
    over those of the file: every key of the page's metadata, the page
    number among them, is found with the page's value, and a key of neither
    dictionary is not found. *)
Theorem load_metadata_page_entries_win
    (parser_config : option LangChainPDFLoader.parser_config)
    (pdf_reader : pdf_reader) (chunk_size chunk_overlap : Z) :
  let self := LangChainPDFLoader.new (Return pdf_reader) parser_config
                chunk_size chunk_overlap in
  exists doc docs,
    parse_pdf (LangChainPDFLoader.parser self) (Return pdf_reader)
    = Return doc /\
    LangChainPDFLoader.load self = Return docs /\
    Forall2 (fun d p =>
      let page_dict := LangChainPDFLoader.page_metadata_dict (metadata p) in
      let file_dict :=
        LangChainPDFLoader.document_metadata_dict (doc_metadata doc) in
      LangChainPDFLoader.page_content d = text p /\
      dict_get (LangChainPDFLoader.metadata d) (py "page_number")
      = Some (VInt (page_number (metadata p))) /\
      (forall key v, dict_get page_dict key = Some v ->
                     dict_get (LangChainPDFLoader.metadata d) key = Some v) /\
      (forall key, dict_get page_dict key = None ->
                   dict_get file_dict key = None ->
                   dict_get (LangChainPDFLoader.metadata d) key = None))
      docs (filter (fun page => truthy (text page)) (pages doc)).
Proof.
  cbv zeta.
  set (self := LangChainPDFLoader.new (Return pdf_reader) parser_config
                 chunk_size chunk_overlap).
  destruct (load_returns self pdf_reader eq_refl) as (doc & Hd & Hl).
  exists doc, (flat_map (LangChainPDFLoader.load_page doc) (pages doc)).
  split; [exact Hd|]. split; [exact Hl|].
  eapply Forall2_impl; [|apply load_pages_paired].
  intros d p [Hc Hm]. rewrite Hm. split; [exact Hc|].
  split; [|split].
  - apply dict_merge_second; [apply page_metadata_keys|reflexivity].
  - intros key v H. apply dict_merge_second; [apply page_metadata_keys|exact H].
  - intros key H1 H2. apply dict_merge_neither; assumption.
Qed.

(** ** PDFProcessingPipeline.process_single_pdf *)

(** X25. The three output formats agree on a document that can be read:
    "text" returns the full text of what "raw" returns, and the contents of
    the documents that "langchain" returns without chunking, joined by two
    line feeds, are that text. *)
Theorem pipeline_formats_agree {splitter : LangChainPDFLoader.TextSplitter}
    (parser_config : option LangChainPDFLoader.parser_config)
    (pdf_reader : pdf_reader) (chunk_documents : bool)
    (chunk_size chunk_overlap : Z) :
  exists doc docs,
    PDFProcessingPipeline.process_single_pdf parser_config (Return pdf_reader)
      (py "raw") chunk_documents chunk_size chunk_overlap
    = Return (PDFProcessingPipeline.Raw doc) /\
    PDFProcessingPipeline.process_single_pdf parser_config (Return pdf_reader)
      (py "text") chunk_documents chunk_size chunk_overlap
    = Return (PDFProcessingPipeline.Text (full_text doc)) /\
    PDFProcessingPipeline.process_single_pdf parser_config (Return pdf_reader)
      (py "langchain") false chunk_size chunk_overlap
    = Return (PDFProcessingPipeline.Documents docs) /\
    join [nl; nl] (map LangChainPDFLoader.page_content docs) = full_text doc.
Proof.
  set (options := LangChainPDFLoader.or_default parser_config
                    LangChainPDFLoader.no_options).
  set (self := LangChainPDFLoader.new (Return pdf_reader) (Some options)
                 chunk_size chunk_overlap).
  destruct (load_returns self pdf_reader eq_refl) as (doc & Hd & Hl).
  exists doc, (flat_map (LangChainPDFLoader.load_page doc) (pages doc)).
  change (LangChainPDFLoader.parser self)
    with (LangChainPDFLoader.make_parser options) in Hd.
  assert (R1 : str_eqb (py "langchain") (py "raw") = false) by reflexivity.
  assert (R2 : str_eqb (py "text") (py "raw") = false) by reflexivity.
  assert (R3 : str_eqb (py "text") (py "langchain") = false) by reflexivity.
  unfold PDFProcessingPipeline.process_single_pdf. fold options. fold self.
  rewrite !str_eqb_refl, R1, R2, R3, Hd, Hl. simpl.
  repeat (split; [reflexivity|]).
  rewrite load_page_contents.
  destruct (parse_pdf_result _ pdf_reader doc Hd) as (_ & _ & Hf).
  symmetry. exact Hf.
Qed.

